(** * Finance Manager: the categorisation engine of [main.py]

    A shallow embedding of the rule store ([st.session_state.categories] and
    [categories.json]), of the matcher [categorize_transactions], of the
    ledger loader [load_transactions] and of the two keyword operations
    [add_keyword_to_category] and [remove_keyword_from_category], together
    with the properties of them that the specification states.

    Modelling conventions.
    - A Python [str] is a [string]; the model covers 7-bit ASCII text, on
      which [str.lower] and [str.strip] act character by character.
    - A Python [dict] keeps its keys in insertion order and the matcher
      iterates over it, so the store is an association list whose keys are
      pairwise different ([dict_wf]).
    - The session state and the file [categories.json] are threaded
      explicitly ([session]); a raised exception is a value of [result].
    - The loader starts from the frame that [pd.read_csv] returns, whose
      cells are missing values, texts, or values that are no text. *)

From Stdlib Require Import Bool Arith Lia List Ascii String.
Import ListNotations.
Open Scope string_scope.
Open Scope list_scope.

Set Implicit Arguments.

(** ** Python strings *)

Module PyStr.

(** [str.isspace] on one ASCII character: TAB, LF, VT, FF, CR, the four
    separators FS, GS, RS, US, and the blank. *)
Definition isspace (c : ascii) : bool :=
  let n := nat_of_ascii c in
  (((9 <=? n) && (n <=? 13)) || ((28 <=? n) && (n <=? 32)))%nat.

Definition lower_char (c : ascii) : ascii :=
  let n := nat_of_ascii c in
  if ((65 <=? n) && (n <=? 90))%nat then ascii_of_nat (n + 32) else c.

(** [s.lower()] *)
Fixpoint lower (s : string) : string :=
  match s with
  | EmptyString => EmptyString
  | String c s' => String (lower_char c) (lower s')
  end.

(** [s.lstrip()] *)
Fixpoint lstrip (s : string) : string :=
  match s with
  | EmptyString => EmptyString
  | String c s' => if isspace c then lstrip s' else s
  end.

(** [s.rstrip()] *)
Fixpoint rstrip (s : string) : string :=
  match s with
  | EmptyString => EmptyString
  | String c s' =>
      match rstrip s' with
      | EmptyString => if isspace c then EmptyString else String c EmptyString
      | r => String c r
      end
  end.

(** [s.strip()]: leading whitespace is skipped, then trailing whitespace. *)
Definition strip (s : string) : string := rstrip (lstrip s).

(** [s.replace(old, "")] for a one-character [old]. *)
Fixpoint remove_char (old : ascii) (s : string) : string :=
  match s with
  | EmptyString => EmptyString
  | String c s' =>
      if Ascii.eqb c old then remove_char old s' else String c (remove_char old s')
  end.

(** [not s] for a string: true exactly on the empty string. *)
Definition is_empty (s : string) : bool :=
  match s with EmptyString => true | _ => false end.

(** [x in l] for a list of strings. *)
Definition contains (l : list string) (x : string) : bool :=
  existsb (String.eqb x) l.

End PyStr.

Import PyStr.

(** ** Python dictionaries in insertion order *)

Section Dict.

Variable V : Type.

Definition dict := list (string * V).

(** [d.get(k)] *)
Fixpoint dict_get (k : string) (d : dict) : option V :=
  match d with
  | [] => None
  | (k', v) :: d' => if String.eqb k k' then Some v else dict_get k d'
  end.

(** [d.get(k, default)] *)
Definition dict_get_default (k : string) (default : V) (d : dict) : V :=
  match dict_get k d with Some v => v | None => default end.

(** [d[k] = v]: an existing key keeps its place, a new key goes last. *)
Fixpoint dict_set (k : string) (v : V) (d : dict) : dict :=
  match d with
  | [] => [(k, v)]
  | (k', v') :: d' =>
      if String.eqb k k' then (k, v) :: d' else (k', v') :: dict_set k v d'
  end.

(** [d.keys()] *)
Definition dict_keys (d : dict) : list string := map fst d.

(** The keys of a dictionary are pairwise different. *)
Definition dict_wf (d : dict) : Prop := NoDup (dict_keys d).

End Dict.

Arguments dict_get {V} k d.
Arguments dict_get_default {V} k default d.
Arguments dict_set {V} k v d.
Arguments dict_keys {V} d.
Arguments dict_wf {V} d.

(** ** Exceptions *)

Inductive exn : Type :=
| KeyError (key : string)        (* [d[key]] on an absent key *)
| JSONDecodeError                (* [open] or [json.load] fails on the rule file *).

Inductive result (A : Type) : Type :=
| Ok (a : A)
| Raise (e : exn).

Arguments Ok {A} a.
Arguments Raise {A} e.

(** ** The rule store *)

(** The rule store: category name to keyword list. *)
Definition categories_t := dict (list string).

(** What [categories.json] holds: nothing (the file does not exist), text
    that [open]/[json.load] fails on, or a JSON object of string arrays. *)
Inductive file : Type :=
| NoFile
| Corrupt
| Snapshot (d : categories_t).

(** [st.session_state.categories], the rule file, and the number of times
    the rule file has been written. *)
Record session : Type := mk_session {
  categories : categories_t;
  disk : file;
  writes : nat
}.

Definition CATEGORY_DEFAULT : categories_t := [("UNcategorized", [])].

(** Lines 12-19, run at the start of every script run: [sess] is
    [st.session_state]'s entry for ["categories"], absent in a new session. *)
Definition load_categories (sess : option categories_t) (f : file)
  : result categories_t :=
  let current := match sess with
                 | None => CATEGORY_DEFAULT
                 | Some d => d
                 end in
  match f with
  | NoFile => Ok current
  | Corrupt => Raise JSONDecodeError
  | Snapshot d => Ok d
  end.

(** [save_categories()] *)
Definition save_categories (st : session) : session :=
  {| categories := categories st;
     disk := Snapshot (categories st);
     writes := S (writes st) |}.

(** [st.session_state.categories = d] *)
Definition set_categories (d : categories_t) (st : session) : session :=
  {| categories := d; disk := disk st; writes := writes st |}.

(** [add_keyword_to_category(category, keyword)].  The test
    [not keyword or keyword in categories[category]] evaluates its second
    operand, and with it the indexing, only when the keyword is not empty. *)
Definition add_keyword_to_category (category keyword : string) (st : session)
  : result (bool * session) :=
  let keyword := strip keyword in
  if is_empty keyword then Ok (false, st)
  else
    match dict_get category (categories st) with
    | None => Raise (KeyError category)
    | Some keywords =>
        if contains keywords keyword then Ok (false, st)
        else
          let st := set_categories
                      (dict_set category (keywords ++ [keyword]) (categories st)) st in
          Ok (true, save_categories st)
    end.

(** [remove_keyword_from_category(category, keyword)] *)
Definition remove_keyword_from_category (category keyword : string) (st : session)
  : session :=
  let keyword := lower (strip keyword) in
  let keywords := dict_get_default category [] (categories st) in
  let updated_keywords :=
    filter (fun kw => negb (String.eqb (lower (strip kw)) keyword)) keywords in
  if negb (List.length updated_keywords =? List.length keywords)%nat then
    save_categories
      (set_categories (dict_set category updated_keywords (categories st)) st)
  else st.

(** One pass of the edit loop of [main] (lines 122-134) for a row whose
    displayed category was [last_category] and is now [new_category]: the
    boolean tells whether the script asks for a rerun. *)
Definition sync_row (last_category new_category details : string) (st : session)
  : result (bool * session) :=
  if String.eqb new_category last_category then Ok (false, st)
  else
    add_keyword_to_category new_category details
      (remove_keyword_from_category last_category details st).

(** ** The ledger and the matcher *)

Section Ledger.

(** The numeric and the date type of the data frame. *)
Variables float datetime : Type.

(** A row of the data frame; [Category] is [None] while the frame has no
    such column. *)
Record transaction : Type := mk_transaction {
  Date : datetime;
  Details : string;
  Amount : float;
  Debit_Credit : string;
  Status : string;
  Category : option string
}.

(** [df.at[idx, "Category"] = category] *)
Definition set_Category (category : string) (row : transaction) : transaction :=
  {| Date := Date row;
     Details := Details row;
     Amount := Amount row;
     Debit_Credit := Debit_Credit row;
     Status := Status row;
     Category := Some category |}.

(** [not keywords] for a list. *)
Definition no_keywords (keywords : list string) : bool :=
  match keywords with [] => true | _ :: _ => false end.

(** The body of the outer loop of [categorize_transactions] for one item
    of the store: the inner loop over the rows. *)
Definition categorize_with (df : list transaction) (item : string * list string)
  : list transaction :=
  let (category, keywords) := item in
  if String.eqb category "Uncategorised" || no_keywords keywords then df
  else
    let lowered_keywords := map (fun keyword => strip (lower keyword)) keywords in
    map (fun row =>
           let details := strip (lower (Details row)) in
           if contains lowered_keywords details
           then set_Category category row
           else row) df.

(** [categorize_transactions(df)], reading the store [cats]. *)
Definition categorize_transactions (cats : categories_t) (df : list transaction)
  : list transaction :=
  let df := map (set_Category "Uncategorised") df in
  fold_left categorize_with cats df.

(** Whether the loop body of [categorize_transactions] for [item] assigns its
    category to a row of these details: the item passes the guard of line 31
    and the normalised details are among its normalised keywords. *)
Definition applies (details : string) (item : string * list string) : bool :=
  let (category, keywords) := item in
  negb (String.eqb category "Uncategorised" || no_keywords keywords)
  && contains (map (fun keyword => strip (lower keyword)) keywords)
              (strip (lower details)).

(** The loop body of [categorize_transactions] seen from one row. *)
Definition categorize_row_with (row : transaction) (item : string * list string)
  : transaction :=
  if applies (Details row) item then set_Category (fst item) row else row.

End Ledger.

Arguments set_Category {float datetime} category row.
Arguments categorize_with {float datetime} df item.
Arguments categorize_transactions {float datetime} cats df.
Arguments categorize_row_with {float datetime} row item.
Arguments applies : simpl never.

(** ** Notions used to state the properties *)

(** The trimmed, case-folded form of a string. *)
Definition normalize (s : string) : string := lower (strip s).

(** Some keyword of the list has the trimmed, case-folded form of [details]. *)
Definition keyword_matches (details : string) (keywords : list string) : Prop :=
  exists kw, In kw keywords /\ normalize kw = normalize details.

(** The filter of [remove_keyword_from_category], on normalised forms. *)
Definition keeps (keyword : string) (kw : string) : bool :=
  negb (String.eqb (normalize kw) (normalize keyword)).

(** The keyword list of a category, empty for a category that the store
    does not have. *)
Definition keywords_of (category : string) (st : session) : list string :=
  dict_get_default category [] (categories st).

(** A keyword list in which every keyword is trimmed and occurs once. *)
Definition keywords_trimmed (keywords : list string) : Prop :=
  NoDup keywords /\ Forall (fun kw => strip kw = kw) keywords.

(** A keyword list in which every keyword is trimmed and case-folded and
    occurs once. *)
Definition keywords_normalized (keywords : list string) : Prop :=
  NoDup keywords /\ Forall (fun kw => normalize kw = kw) keywords.

(** A property of keyword lists that holds of every category of a store. *)
Definition store_all (P : list string -> Prop) (d : categories_t) : Prop :=
  Forall (fun item => P (snd item)) d.

(** The category of the last item of the store, in iteration order, whose
    loop body assigns its category to a row of these details. *)
Fixpoint last_match (cats : categories_t) (details : string) : option string :=
  match cats with
  | [] => None
  | item :: cats' =>
      match last_match cats' details with
      | Some category => Some category
      | None => if applies details item then Some (fst item) else None
      end
  end.

(** The category that a row of these details ends up with. *)
Definition assigned (cats : categories_t) (details : string) : string :=
  match last_match cats details with
  | Some category => category
  | None => "Uncategorised"
  end.

(** A sample session, a debit of the sample instance, and the session
    once that debit has been moved from "Groceries" to "Food". *)
Definition sample_session : session :=
  {| categories := [("Groceries", ["carrefour"]); ("Food", ["kfc"])];
     disk := Snapshot [("Groceries", ["carrefour"]); ("Food", ["kfc"])];
     writes := 0 |}.

Definition sample_debit : transaction nat string :=
  {| Date := "05 Mar 2024"; Details := "Carrefour"; Amount := 42;
     Debit_Credit := "Debit"; Status := "Settled";
     Category := Some "Groceries" |}.

(** A debit whose details are blanks, as the matcher leaves it. *)
Definition sample_blank_debit : transaction nat string :=
  {| Date := "06 Mar 2024"; Details := "   "; Amount := 15;
     Debit_Credit := "Debit"; Status := "Settled";
     Category := Some "Uncategorised" |}.

Definition sample_session_moved : session :=
  {| categories := [("Groceries", []); ("Food", ["kfc"; "Carrefour"])];
     disk := Snapshot [("Groceries", []); ("Food", ["kfc"; "Carrefour"])];
     writes := 2 |}.

(** ** The ledger loader *)

(** The texts that Python's [float()] accepts, which is what
    [astype(float)] applies to each text of a column of objects: blanks
    around, underscores between digits, a sign, and then a decimal number
    with an optional exponent, or [inf], [infinity] or [nan] in any case. *)
Module PyFloat.

Definition is_digit (c : ascii) : bool :=
  let n := nat_of_ascii c in ((48 <=? n) && (n <=? 57))%nat.

(** The blanks that [float()] skips in an ASCII text: TAB, LF, VT, FF, CR
    and the space, without the four separators that [str.strip] takes. *)
Definition is_blank (c : ascii) : bool :=
  let n := nat_of_ascii c in (((9 <=? n) && (n <=? 13)) || (n =? 32))%nat.

(** An underscore stands only between two digits. *)
Fixpoint underscores_ok (prev : ascii) (s : string) : bool :=
  match s with
  | EmptyString => negb (Ascii.eqb prev "_")
  | String c s' =>
      (if Ascii.eqb c "_" then is_digit prev
       else if Ascii.eqb prev "_" then is_digit c
       else true)
      && underscores_ok c s'
  end.

Fixpoint skip_blanks (s : string) : string :=
  match s with
  | EmptyString => EmptyString
  | String c s' => if is_blank c then skip_blanks s' else s
  end.

Fixpoint drop_blanks_at_end (s : string) : string :=
  match s with
  | EmptyString => EmptyString
  | String c s' =>
      match drop_blanks_at_end s' with
      | EmptyString => if is_blank c then EmptyString else String c EmptyString
      | r => String c r
      end
  end.

(** The number of leading digits of a text, and what follows them. *)
Fixpoint skip_digits (s : string) : nat * string :=
  match s with
  | EmptyString => (0, EmptyString)
  | String c s' =>
      if is_digit c then let (n, r) := skip_digits s' in (S n, r) else (0, s)
  end.

Definition skip_sign (s : string) : string :=
  match s with
  | String c s' => if Ascii.eqb c "+" || Ascii.eqb c "-" then s' else s
  | EmptyString => EmptyString
  end.

(** Nothing, or [e] or [E], an optional sign and at least one digit. *)
Definition exponent_ok (s : string) : bool :=
  match s with
  | EmptyString => true
  | String c s' =>
      (Ascii.eqb c "e" || Ascii.eqb c "E")
      && (let (n, r) := skip_digits (skip_sign s') in (0 <? n)%nat && is_empty r)
  end.

(** Digits with an optional point among them, at least one digit in all,
    and an optional exponent. *)
Definition number_ok (s : string) : bool :=
  let (n1, r1) := skip_digits s in
  match r1 with
  | String c r2 =>
      if Ascii.eqb c "." then
        let (n2, r3) := skip_digits r2 in (0 <? n1 + n2)%nat && exponent_ok r3
      else (0 <? n1)%nat && exponent_ok r1
  | EmptyString => (0 <? n1)%nat
  end.

Definition inf_or_nan (s : string) : bool :=
  let t := lower s in
  String.eqb t "inf" || String.eqb t "infinity" || String.eqb t "nan".

(** Whether [float(s)] returns; it raises [ValueError] otherwise. *)
Definition accepts (s : string) : bool :=
  underscores_ok Ascii.zero s
  && (let body :=
        skip_sign (drop_blanks_at_end (skip_blanks (remove_char "_" s))) in
      inf_or_nan body || number_ok body).

End PyFloat.

(** A cell of the frame that [pd.read_csv] returns: a missing value, which
    is what it makes of a blank cell and of a marker such as [N/A] or
    [null]; a text; or a value that is no text, a number or a boolean of a
    column that it has read as such, kept here by the text of the file. *)
Inductive cell : Type :=
| NaN
| Str (s : string)
| Other (text : string).

Definition is_text (c : cell) : bool :=
  match c with Str _ => true | _ => false end.

(** A row of the frame that [pd.read_csv] returns, by the columns that
    [load_transactions] and [main] read, found under their trimmed names
    (line 47). *)
Record csv_row : Type := mk_csv_row {
  csv_Date : cell;
  csv_Details : cell;
  csv_Amount : cell;
  csv_Debit_Credit : cell;
  csv_Status : cell
}.

(** A function that may raise, applied to each element of a list in turn:
    [None] as soon as one application raises. *)
Fixpoint map_option (A B : Type) (f : A -> option B) (l : list A) : option (list B) :=
  match l with
  | [] => Some []
  | x :: l' =>
      match f x with
      | None => None
      | Some y =>
          match map_option f l' with
          | None => None
          | Some ys => Some (y :: ys)
          end
      end
  end.

(** Whether the accessor [.str] applies to a column (line 48): it does on
    a column of objects, which is what [pd.read_csv] returns for a column
    with a text in it and for every column of a file without rows; on a
    column of numbers, of booleans or of missing values only it raises. *)
Definition str_accessor_applies (cells : list cell) : bool :=
  match cells with
  | [] => true
  | _ :: _ => existsb is_text cells
  end.

Section Loader.

(** The numeric and the date type of the frame; the number that [float()]
    returns on a text that it accepts, and the number [nan]; the date that
    [pd.to_datetime(_, format="%d %b %Y")] returns on a text, [None] when
    it raises, and the date [NaT]. *)
Variables float datetime : Type.
Variable float_value : string -> float.
Variable nan : float.
Variable to_datetime : string -> option datetime.
Variable NaT : datetime.

(** A row of the frame that [load_transactions] builds. *)
Record frame_row : Type := mk_frame_row {
  row_Date : datetime;
  row_Details : cell;
  row_Amount : float;
  row_Debit_Credit : cell;
  row_Status : cell;
  row_Category : option string
}.

(** [float(s)] *)
Definition py_float (s : string) : option float :=
  if PyFloat.accepts s then Some (float_value s) else None.

(** Line 48 on one cell of a column to which [.str] applies:
    [.str.replace(",", "")] leaves a missing value as it is and makes one
    of a value that is no text; [astype(float)] keeps the missing values
    and calls [float()] on the texts. *)
Definition amount_of_cell (c : cell) : option float :=
  match c with
  | Str s => py_float (remove_char "," s)
  | NaN => Some nan
  | Other _ => Some nan
  end.

(** Line 48: [df["Amount"].str.replace(",", "").astype(float)]. *)
Definition convert_amounts (cells : list cell) : option (list float) :=
  if str_accessor_applies cells then map_option amount_of_cell cells else None.

(** Line 49 on one cell: a missing value gives [NaT]; a number or a
    boolean cannot have the format, which asks for the name of a month. *)
Definition date_of_cell (c : cell) : option datetime :=
  match c with
  | Str s => to_datetime s
  | NaN => Some NaT
  | Other _ => None
  end.

(** Line 49: [pd.to_datetime(df["Date"], format="%d %b %Y")]. *)
Definition convert_dates (cells : list cell) : option (list datetime) :=
  map_option date_of_cell cells.

(** The frame with its two converted columns put back. *)
Fixpoint build_frame (rows : list csv_row) (amounts : list float)
    (dates : list datetime) : list frame_row :=
  match rows, amounts, dates with
  | r :: rows', a :: amounts', d :: dates' =>
      {| row_Date := d;
         row_Details := csv_Details r;
         row_Amount := a;
         row_Debit_Credit := csv_Debit_Credit r;
         row_Status := csv_Status r;
         row_Category := None |} :: build_frame rows' amounts' dates'
  | _, _, _ => []
  end.

(** [df.at[idx, "Category"] = category] on a row of the loaded frame. *)
Definition set_row_Category (category : string) (row : frame_row) : frame_row :=
  {| row_Date := row_Date row;
     row_Details := row_Details row;
     row_Amount := row_Amount row;
     row_Debit_Credit := row_Debit_Credit row;
     row_Status := row_Status row;
     row_Category := Some category |}.

(** The body of the outer loop of [categorize_transactions] on the loaded
    frame: [row["Details"].lower()] raises on a cell that is no text. *)
Definition categorize_frame_with (df : list frame_row) (item : string * list string)
  : option (list frame_row) :=
  let (category, keywords) := item in
  if String.eqb category "Uncategorised" || no_keywords keywords then Some df
  else
    let lowered_keywords := map (fun keyword => strip (lower keyword)) keywords in
    map_option
      (fun row =>
         match row_Details row with
         | Str text =>
             let details := strip (lower text) in
             Some (if contains lowered_keywords details
                   then set_row_Category category row
                   else row)
         | NaN => None
         | Other _ => None
         end) df.

(** [categorize_transactions(df)] on the loaded frame, reading the store
    [cats]: the function of the matcher, with the cells of the column
    Details as [pd.read_csv] left them. *)
Definition categorize_frame (cats : categories_t) (df : list frame_row)
  : option (list frame_row) :=
  fold_left
    (fun acc item =>
       match acc with
       | None => None
       | Some df => categorize_frame_with df item
       end)
    cats (Some (map (set_row_Category "Uncategorised") df)).

(** [load_transactions(file)], from the frame that [pd.read_csv] returns:
    whatever a statement of the [try] block raises is reported with
    [st.error] and the function returns [None]. *)
Definition load_transactions (cats : categories_t) (rows : list csv_row)
  : option (list frame_row) :=
  match convert_amounts (map csv_Amount rows) with
  | None => None
  | Some amounts =>
      match convert_dates (map csv_Date rows) with
      | None => None
      | Some dates => categorize_frame cats (build_frame rows amounts dates)
      end
  end.

End Loader.

Arguments set_row_Category {float datetime} category row.

(** A transaction as a row of the loaded frame: its details, its direction
    and its status are texts. *)
Definition frame_of_transaction (float datetime : Type)
    (t : transaction float datetime) : frame_row float datetime :=
  {| row_Date := Date t;
     row_Details := Str (Details t);
     row_Amount := Amount t;
     row_Debit_Credit := Str (Debit_Credit t);
     row_Status := Str (Status t);
     row_Category := Category t |}.

(** The category that the matcher gives to a row by the cell of its
    details, when it returns. *)
Definition category_of_cell (cats : categories_t) (c : cell) : string :=
  match c with
  | Str text => assigned cats text
  | NaN => "Uncategorised"
  | Other _ => "Uncategorised"
  end.

(** The loop of the matcher reads the rows for this item of the store. *)
Definition reads_rows (item : string * list string) : bool :=
  negb (String.eqb (fst item) "Uncategorised" || no_keywords (snd item)).

(** An Amount cell that holds no number, as the specification has it: a
    missing value, or a text that [float()] refuses once its commas are
    taken out. *)
Definition not_numeric (c : cell) : Prop :=
  match c with
  | NaN => True
  | Str s => PyFloat.accepts (remove_char "," s) = false
  | Other _ => False
  end.

(** ** The script [main] *)

(** The form "Add Category" of [main] (lines 96-103): [add_button] tells
    whether the button was pressed and [new_category] is the text of the
    input; the boolean of the result tells whether the script asks for a
    rerun. *)
Definition add_category (add_button : bool) (new_category : string) (st : session)
  : bool * session :=
  if add_button && negb (is_empty new_category) then
    match dict_get new_category (categories st) with
    | None =>
        (true,
         save_categories
           (set_categories (dict_set new_category [] (categories st)) st))
    | Some _ => (false, st)
    end
  else (false, st).

(** The rule file holds the store of the session. *)
Definition synced (st : session) : Prop := disk st = Snapshot (categories st).

Section Main.

Variables float datetime : Type.

(** [df[df["Debit/Credit"] == "Debit"]] and its sibling (lines 89-90). *)
Definition debits (df : list (transaction float datetime))
  : list (transaction float datetime) :=
  filter (fun row => String.eqb (Debit_Credit row) "Debit") df.

Definition credits (df : list (transaction float datetime))
  : list (transaction float datetime) :=
  filter (fun row => String.eqb (Debit_Credit row) "Credit") df.

(** The edit loop of [main] (lines 122-134).  Each element of [edited] is a
    row of [st.session_state.debits_df] with the category that the editor
    returns for it.  The result gives whether the loop ended in
    [st.rerun()], which stops the script at once, the session, and the rows
    of [debits_df] as the loop leaves them.  A frame without the column
    [Category] makes the lookup of line 124 raise. *)
Fixpoint edit_loop (edited : list (transaction float datetime * string))
    (st : session)
  : result (bool * session * list (transaction float datetime)) :=
  match edited with
  | [] => Ok (false, st, [])
  | (row, new_category) :: edited' =>
      match Category row with
      | None => Raise (KeyError "Category")
      | Some last_category =>
          if String.eqb new_category last_category then
            match edit_loop edited' st with
            | Raise e => Raise e
            | Ok (rerun, st', df') => Ok (rerun, st', row :: df')
            end
          else
            let details := Details row in
            let st1 := remove_keyword_from_category last_category details st in
            let row' := set_Category new_category row in
            match add_keyword_to_category new_category details st1 with
            | Raise e => Raise e
            | Ok (true, st2) => Ok (true, st2, row' :: map fst edited')
            | Ok (false, st2) =>
                match edit_loop edited' st2 with
                | Raise e => Raise e
                | Ok (rerun, st', df') => Ok (rerun, st', row' :: df')
                end
            end
      end
  end.

End Main.

Arguments debits {float datetime} df.
Arguments credits {float datetime} df.
Arguments edit_loop {float datetime} edited st.

(** ** Facts on Python strings *)

Lemma isspace_lower_char (c : ascii) : isspace (lower_char c) = isspace c.
Proof.
  destruct c as [b0 b1 b2 b3 b4 b5 b6 b7].
  destruct b0, b1, b2, b3, b4, b5, b6, b7; reflexivity.
Qed.

Lemma lstrip_lower (s : string) : lstrip (lower s) = lower (lstrip s).
Proof.
  induction s as [|c s IH]; simpl; [reflexivity|].
  rewrite isspace_lower_char.
  destruct (isspace c); [exact IH | reflexivity].
Qed.

Lemma rstrip_lower (s : string) : rstrip (lower s) = lower (rstrip s).
Proof.
  induction s as [|c s IH]; simpl; [reflexivity|].
  rewrite IH, isspace_lower_char.
  destruct (rstrip s) as [|d r]; simpl.
  - destruct (isspace c); reflexivity.
  - reflexivity.
Qed.

(** The two orders in which the source normalises a string,
    [s.lower().strip()] and [s.strip().lower()], give the same string. *)
Lemma strip_lower (s : string) : strip (lower s) = normalize s.
Proof.
  unfold normalize, strip. now rewrite lstrip_lower, rstrip_lower.
Qed.

Lemma lstrip_head (s : string) (c : ascii) (t : string) :
  lstrip s = String c t -> isspace c = false.
Proof.
  induction s as [|a s IH]; simpl; [discriminate|].
  destruct (isspace a) eqn:Ha; [exact IH|].
  intros E. injection E as -> _. exact Ha.
Qed.

Lemma rstrip_head (c : ascii) (t : string) :
  isspace c = false -> exists r, rstrip (String c t) = String c r.
Proof.
  intros Hc. simpl. destruct (rstrip t) as [|d r].
  - rewrite Hc. now exists EmptyString.
  - now exists (String d r).
Qed.

Lemma rstrip_idem (s : string) : rstrip (rstrip s) = rstrip s.
Proof.
  induction s as [|c s IH]; simpl; [reflexivity|].
  destruct (rstrip s) as [|d r] eqn:E.
  - destruct (isspace c) eqn:Hc; simpl; [reflexivity|]. now rewrite Hc.
  - change (rstrip (String c (String d r)) = String c (String d r)).
    simpl. simpl in IH. now rewrite IH.
Qed.

(** What [strip] returns is trimmed. *)
Lemma strip_idem (s : string) : strip (strip s) = strip s.
Proof.
  unfold strip.
  destruct (lstrip s) as [|c t] eqn:E; [reflexivity|].
  apply lstrip_head in E.
  destruct (rstrip_head c t E) as [r Hr].
  rewrite Hr. simpl lstrip. rewrite E. rewrite <- Hr. apply rstrip_idem.
Qed.

Lemma is_empty_false (s : string) : is_empty s = false <-> s <> EmptyString.
Proof.
  destruct s; simpl; split; intro H; congruence.
Qed.

Lemma contains_In (l : list string) (x : string) : contains l x = true <-> In x l.
Proof.
  unfold contains. rewrite existsb_exists. split.
  - intros (y & Hy & E). apply String.eqb_eq in E. now subst.
  - intros H. exists x. split; [exact H | apply String.eqb_refl].
Qed.

Lemma contains_not_In (l : list string) (x : string) :
  contains l x = false <-> ~ In x l.
Proof.
  rewrite <- contains_In. destruct (contains l x); split; congruence.
Qed.

(** ** Facts on dictionaries *)

Section DictFacts.

Variable V : Type.
Implicit Types (d : dict V) (k : string) (v : V).

Lemma dict_get_set_same k v d : dict_get k (dict_set k v d) = Some v.
Proof.
  induction d as [|[k' v'] d IH]; simpl.
  - now rewrite String.eqb_refl.
  - destruct (String.eqb k k') eqn:E; simpl.
    + now rewrite String.eqb_refl.
    + now rewrite E.
Qed.

Lemma dict_get_set_other k k' v d :
  k <> k' -> dict_get k' (dict_set k v d) = dict_get k' d.
Proof.
  intros Hne. induction d as [|[k0 v0] d IH]; simpl.
  - destruct (String.eqb k' k) eqn:E; [|reflexivity].
    apply String.eqb_eq in E. congruence.
  - destruct (String.eqb k k0) eqn:E; simpl.
    + apply String.eqb_eq in E. subst k0.
      destruct (String.eqb k' k) eqn:E'; [|reflexivity].
      apply String.eqb_eq in E'. congruence.
    + now rewrite IH.
Qed.

Lemma dict_get_In k v d : dict_get k d = Some v -> In (k, v) d.
Proof.
  induction d as [|[k0 v0] d IH]; simpl; [discriminate|].
  destruct (String.eqb k k0) eqn:E.
  - apply String.eqb_eq in E. intros [= ->]. left. now subst.
  - intros H. right. now apply IH.
Qed.

Lemma dict_get_None_keys k d : dict_get k d = None <-> ~ In k (dict_keys d).
Proof.
  induction d as [|[k0 v0] d IH]; simpl.
  - tauto.
  - destruct (String.eqb k k0) eqn:E.
    + apply String.eqb_eq in E. subst. split; [discriminate | tauto].
    + apply String.eqb_neq in E. rewrite IH. split; [intros H [?|?]|]; try tauto.
      congruence.
Qed.

Lemma dict_keys_set_present k v d :
  In k (dict_keys d) -> dict_keys (dict_set k v d) = dict_keys d.
Proof.
  induction d as [|[k0 v0] d IH]; simpl; [tauto|].
  destruct (String.eqb k k0) eqn:E; simpl.
  - apply String.eqb_eq in E. now subst.
  - apply String.eqb_neq in E. intros [H|H]; [congruence|].
    unfold dict_keys in *. now rewrite IH.
Qed.

Lemma dict_keys_set_absent k v d :
  ~ In k (dict_keys d) -> dict_keys (dict_set k v d) = dict_keys d ++ [k].
Proof.
  induction d as [|[k0 v0] d IH]; simpl; [reflexivity|].
  intros H. destruct (String.eqb k k0) eqn:E; simpl.
  - apply String.eqb_eq in E. subst. tauto.
  - unfold dict_keys in *. simpl in H. rewrite IH; tauto.
Qed.

(** An assignment keeps the keys of a dictionary pairwise different. *)
Lemma dict_set_wf k v d : dict_wf d -> dict_wf (dict_set k v d).
Proof.
  unfold dict_wf. intros Hd.
  destruct (in_dec string_dec k (dict_keys d)) as [Hin|Hout].
  - now rewrite dict_keys_set_present.
  - rewrite dict_keys_set_absent by assumption.
    apply NoDup_rev in Hd. rewrite <- (rev_involutive (_ ++ _)).
    apply NoDup_rev. rewrite rev_app_distr. simpl.
    constructor; [|exact Hd]. now rewrite <- in_rev.
Qed.

Lemma dict_set_Forall (P : string * V -> Prop) k v d :
  Forall P d -> P (k, v) -> Forall P (dict_set k v d).
Proof.
  intros Hd Hkv. induction Hd as [|[k0 v0] d H0 Hd IH]; simpl.
  - now constructor.
  - destruct (String.eqb k k0); constructor; assumption.
Qed.

End DictFacts.

(** ** Facts on lists *)

Lemma filter_same_length (A : Type) (f : A -> bool) (l : list A) :
  List.length (filter f l) = List.length l -> filter f l = l.
Proof.
  induction l as [|a l IH]; simpl; [reflexivity|].
  destruct (f a); simpl.
  - intros [= H]. now rewrite IH.
  - intros H. pose proof (filter_length_le f l). lia.
Qed.

(** ** The rule store: adding and removing keywords *)

Lemma remove_keyword_unfold category keyword st :
  remove_keyword_from_category category keyword st =
    let keywords := keywords_of category st in
    let kept := filter (keeps keyword) keywords in
    if negb (List.length kept =? List.length keywords)%nat
    then {| categories := dict_set category kept (categories st);
            disk := Snapshot (dict_set category kept (categories st));
            writes := S (writes st) |}
    else st.
Proof. reflexivity. Qed.

(** The outcome of a removal is decided by whether the filter drops a
    keyword. *)
Lemma remove_keyword_cases category keyword st :
  let keywords := keywords_of category st in
  let kept := filter (keeps keyword) keywords in
  (kept = keywords /\ remove_keyword_from_category category keyword st = st)
  \/ (kept <> keywords /\
      remove_keyword_from_category category keyword st =
        {| categories := dict_set category kept (categories st);
           disk := Snapshot (dict_set category kept (categories st));
           writes := S (writes st) |}).
Proof.
  cbv zeta. rewrite remove_keyword_unfold. cbv zeta.
  set (keywords := keywords_of category st).
  set (kept := filter (keeps keyword) keywords).
  destruct (List.length kept =? List.length keywords)%nat eqn:E; simpl.
  - left. split; [|reflexivity].
    apply Nat.eqb_eq in E. now apply filter_same_length.
  - right. split; [|reflexivity].
    intros H. rewrite H in E. now rewrite Nat.eqb_refl in E.
Qed.

Lemma remove_keyword_same category keyword st :
  keywords_of category (remove_keyword_from_category category keyword st) =
    filter (keeps keyword) (keywords_of category st).
Proof.
  destruct (remove_keyword_cases category keyword st) as [[E ->]|[_ ->]].
  - now rewrite E.
  - unfold keywords_of at 1, dict_get_default. simpl.
    now rewrite dict_get_set_same.
Qed.

Lemma remove_keyword_other category keyword st c :
  c <> category ->
  dict_get c (categories (remove_keyword_from_category category keyword st)) =
    dict_get c (categories st).
Proof.
  intros Hne.
  destruct (remove_keyword_cases category keyword st) as [[_ ->]|[_ ->]];
    [reflexivity|].
  simpl. apply dict_get_set_other. congruence.
Qed.

Lemma add_keyword_unfold category keyword st :
  add_keyword_to_category category keyword st =
    if is_empty (strip keyword) then Ok (false, st)
    else match dict_get category (categories st) with
         | None => Raise (KeyError category)
         | Some keywords =>
             if contains keywords (strip keyword) then Ok (false, st)
             else Ok (true,
                      {| categories :=
                           dict_set category (keywords ++ [strip keyword]) (categories st);
                         disk :=
                           Snapshot (dict_set category (keywords ++ [strip keyword])
                                              (categories st));
                         writes := S (writes st) |})
         end.
Proof. reflexivity. Qed.

Lemma add_keyword_skips category keyword keywords st :
  dict_get category (categories st) = Some keywords ->
  strip keyword = EmptyString \/ In (strip keyword) keywords ->
  add_keyword_to_category category keyword st = Ok (false, st).
Proof.
  intros Hget H. rewrite add_keyword_unfold, Hget.
  destruct H as [He|Hin].
  - now rewrite He.
  - destruct (is_empty (strip keyword)); [reflexivity|].
    apply contains_In in Hin. now rewrite Hin.
Qed.

Lemma add_keyword_appends category keyword keywords st :
  dict_get category (categories st) = Some keywords ->
  strip keyword <> EmptyString ->
  ~ In (strip keyword) keywords ->
  add_keyword_to_category category keyword st =
    Ok (true,
        {| categories := dict_set category (keywords ++ [strip keyword]) (categories st);
           disk := Snapshot (dict_set category (keywords ++ [strip keyword])
                                      (categories st));
           writes := S (writes st) |}).
Proof.
  intros Hget Hne Hnin. rewrite add_keyword_unfold, Hget.
  apply is_empty_false in Hne. apply contains_not_In in Hnin.
  now rewrite Hne, Hnin.
Qed.

(** C3: on a category of the store, [add_keyword_to_category] trims the
    keyword; when the trimmed keyword is empty or already in the category's
    list it returns [False] and leaves the session store and the rule file
    as they are; otherwise it appends the trimmed keyword to the category's
    list, writes the store to the rule file and returns [True]. *)
Theorem add_keyword_to_category_spec
    (category keyword : string) (keywords : list string) (st : session) :
  dict_get category (categories st) = Some keywords ->
  (strip keyword = EmptyString \/ In (strip keyword) keywords ->
     add_keyword_to_category category keyword st = Ok (false, st))
  /\ (strip keyword <> EmptyString -> ~ In (strip keyword) keywords ->
        exists st',
          add_keyword_to_category category keyword st = Ok (true, st')
          /\ categories st' =
               dict_set category (keywords ++ [strip keyword]) (categories st)
          /\ dict_get category (categories st') = Some (keywords ++ [strip keyword])
          /\ disk st' = Snapshot (categories st')
          /\ writes st' = S (writes st)).
Proof.
  intros Hget. split.
  - now apply add_keyword_skips.
  - intros Hne Hnin. eexists.
    split; [exact (add_keyword_appends category keyword st Hget Hne Hnin)|]. simpl.
    repeat split. apply dict_get_set_same.
Qed.

Lemma add_keyword_to_category_spec_witness :
  let st := {| categories := [("Groceries", ["carrefour"]); ("Food", [])];
               disk := NoFile; writes := 0 |} in
  add_keyword_to_category "Groceries" " carrefour " st = Ok (false, st)
  /\ exists st',
       add_keyword_to_category "Groceries" " lulu " st = Ok (true, st')
       /\ categories st' = [("Groceries", ["carrefour"; "lulu"]); ("Food", [])]
       /\ disk st' = Snapshot (categories st')
       /\ writes st' = 1.
Proof.
  intros st.
  destruct (@add_keyword_to_category_spec "Groceries" " carrefour " ["carrefour"] st
              eq_refl) as [Hno _].
  destruct (@add_keyword_to_category_spec "Groceries" " lulu " ["carrefour"] st
              eq_refl) as [_ Hyes].
  split.
  - apply Hno. right. simpl. now left.
  - destruct Hyes as (st' & H1 & H2 & _ & H4 & H5).
    + discriminate.
    + simpl. intros [H|[]]. discriminate.
    + exists st'. repeat split; assumption.
Defined.

(** C4: [remove_keyword_from_category] trims and case-folds the keyword,
    removes from the category's list every keyword whose trimmed,
    case-folded form equals it and nothing else, and writes the store to
    the rule file exactly when the list has changed. *)
Theorem remove_keyword_from_category_spec (category keyword : string) (st : session) :
  let st' := remove_keyword_from_category category keyword st in
  let keywords := keywords_of category st in
  keywords_of category st' =
    filter (fun kw => negb (String.eqb (normalize kw) (normalize keyword))) keywords
  /\ (forall kw, In kw (keywords_of category st') <->
                 In kw keywords /\ normalize kw <> normalize keyword)
  /\ (forall c, c <> category ->
                dict_get c (categories st') = dict_get c (categories st))
  /\ (keywords_of category st' <> keywords <-> writes st' = S (writes st))
  /\ (keywords_of category st' <> keywords -> disk st' = Snapshot (categories st'))
  /\ (keywords_of category st' = keywords -> st' = st).
Proof.
  intros st' keywords.
  assert (Hsame : keywords_of category st' = filter (keeps keyword) keywords)
    by apply remove_keyword_same.
  split; [exact Hsame|]. split; [|split].
  - intros kw. rewrite Hsame, filter_In. unfold keeps.
    rewrite negb_true_iff, String.eqb_neq. tauto.
  - intros c Hc. now apply remove_keyword_other.
  - rewrite Hsame. subst st'.
    destruct (remove_keyword_cases category keyword st) as [[E ->]|[E ->]];
      fold keywords in E; simpl.
    + split; [|split].
      * split; [tauto | intros H; lia].
      * tauto.
      * reflexivity.
    + split; [|split].
      * tauto.
      * reflexivity.
      * intros H. now elim E.
Qed.

(** C10: on a category that the store does not have,
    [add_keyword_to_category] with a keyword that is not blank raises
    [KeyError] (it indexes the store without a guard) where it could have
    returned [False], while [remove_keyword_from_category] changes nothing:
    neither the session store nor the rule file. *)
Theorem absent_category_add_raises_remove_skips (category : string) (st : session) :
  dict_get category (categories st) = None ->
  (forall keyword, strip keyword <> EmptyString ->
     add_keyword_to_category category keyword st = Raise (KeyError category))
  /\ (forall keyword, remove_keyword_from_category category keyword st = st).
Proof.
  intros Hget. split; intros keyword.
  - intros Hne. rewrite add_keyword_unfold, Hget.
    apply is_empty_false in Hne. now rewrite Hne.
  - unfold remove_keyword_from_category, dict_get_default.
    rewrite Hget. reflexivity.
Qed.

Lemma absent_category_add_raises_remove_skips_witness :
  let st := {| categories := [("Groceries", ["carrefour"])];
               disk := Snapshot [("Groceries", ["carrefour"])];
               writes := 3 |} in
  add_keyword_to_category "Travel" "Emirates" st = Raise (KeyError "Travel")
  /\ remove_keyword_from_category "Travel" "Emirates" st = st.
Proof.
  intros st.
  destruct (@absent_category_add_raises_remove_skips "Travel" st eq_refl)
    as [Hadd Hrem].
  split; [apply Hadd; discriminate | apply Hrem].
Defined.

(** Both operations keep the keys of the store pairwise different. *)
Lemma add_keyword_wf (category keyword : string) (st st' : session) (added : bool) :
  dict_wf (categories st) ->
  add_keyword_to_category category keyword st = Ok (added, st') ->
  dict_wf (categories st').
Proof.
  intros Hwf. rewrite add_keyword_unfold.
  destruct (is_empty (strip keyword)); [now intros [= _ <-]|].
  destruct (dict_get category (categories st)) as [keywords|]; [|discriminate].
  destruct (contains keywords (strip keyword)); [now intros [= _ <-]|].
  intros [= _ <-]. simpl. now apply dict_set_wf.
Qed.

Lemma remove_keyword_wf (category keyword : string) (st : session) :
  dict_wf (categories st) ->
  dict_wf (categories (remove_keyword_from_category category keyword st)).
Proof.
  intros Hwf.
  destruct (remove_keyword_cases category keyword st) as [[_ ->]|[_ ->]];
    [exact Hwf|].
  simpl. now apply dict_set_wf.
Qed.

(** ** The rule store: moving a keyword between categories *)

(** The edit loop, on a row whose category has changed, removes and then
    adds. *)
Lemma sync_row_changed (last_category new_category details : string) (st : session) :
  new_category <> last_category ->
  sync_row last_category new_category details st =
    add_keyword_to_category new_category details
      (remove_keyword_from_category last_category details st).
Proof.
  intros Hne. unfold sync_row.
  apply String.eqb_neq in Hne. now rewrite Hne.
Qed.

Lemma normalize_strip (s : string) : normalize (strip s) = normalize s.
Proof. unfold normalize. now rewrite strip_idem. Qed.

Lemma filter_keeps_drops keyword keywords :
  ~ In (strip keyword) (filter (keeps keyword) keywords).
Proof.
  rewrite filter_In. unfold keeps. intros [_ H].
  rewrite normalize_strip, String.eqb_refl in H. discriminate.
Qed.

Lemma keywords_of_get category st keywords :
  dict_get category (categories st) = Some keywords ->
  keywords_of category st = keywords.
Proof. unfold keywords_of, dict_get_default. now intros ->. Qed.

(** C2, as the code has it: when the store has category C2, the trimmed
    keyword is not empty and occurs in no category but C1, then
    [remove_keyword_from_category C1 k] followed by
    [add_keyword_to_category C2 k], with C2 other than C1, returns [True]
    and leaves the trimmed keyword in exactly one category's list, the one
    of C2; in particular it is no longer in the list of C1. *)
Theorem keyword_moves_to_new_category
    (category1 category2 keyword : string) (keywords2 : list string) (st : session) :
  category2 <> category1 ->
  strip keyword <> EmptyString ->
  dict_get category2 (categories st) = Some keywords2 ->
  (forall c kws, dict_get c (categories st) = Some kws ->
                 In (strip keyword) kws -> c = category1) ->
  exists st',
    add_keyword_to_category category2 keyword
      (remove_keyword_from_category category1 keyword st) = Ok (true, st')
    /\ In (strip keyword) (keywords_of category2 st')
    /\ ~ In (strip keyword) (keywords_of category1 st')
    /\ (forall c kws, dict_get c (categories st') = Some kws ->
                      In (strip keyword) kws -> c = category2).
Proof.
  intros Hne Hk Hget2 Honly.
  set (st1 := remove_keyword_from_category category1 keyword st).
  assert (Hget2' : dict_get category2 (categories st1) = Some keywords2).
  { unfold st1. now rewrite remove_keyword_other. }
  assert (Hfresh : ~ In (strip keyword) keywords2).
  { intros Hin. apply Hne. exact (Honly _ _ Hget2 Hin). }
  assert (H1 : forall kws, dict_get category1 (categories st1) = Some kws ->
                           ~ In (strip keyword) kws).
  { intros kws Hg. apply keywords_of_get in Hg. unfold st1 in Hg.
    rewrite remove_keyword_same in Hg. subst kws. apply filter_keeps_drops. }
  eexists. split; [exact (add_keyword_appends category2 keyword st1 Hget2' Hk Hfresh)|].
  split; [|split]; simpl.
  - unfold keywords_of, dict_get_default. simpl. rewrite dict_get_set_same.
    apply in_or_app. right. now left.
  - unfold keywords_of, dict_get_default. simpl.
    rewrite dict_get_set_other by exact Hne.
    destruct (dict_get category1 (categories st1)) as [kws|] eqn:E.
    + now apply H1.
    + intros [].
  - intros c kws Hg Hin.
    destruct (string_dec c category2) as [->|Hc]; [reflexivity|].
    exfalso. rewrite dict_get_set_other in Hg by congruence.
    destruct (string_dec c category1) as [->|Hc1].
    + exact (H1 _ Hg Hin).
    + unfold st1 in Hg. rewrite remove_keyword_other in Hg by exact Hc1.
      exact (Hc1 (Honly _ _ Hg Hin)).
Qed.

Lemma keyword_moves_to_new_category_witness :
  let st := {| categories := [("Groceries", ["carrefour"; "lulu"]); ("Food", ["kfc"])];
               disk := NoFile; writes := 0 |} in
  exists st',
    add_keyword_to_category "Food" "Carrefour"
      (remove_keyword_from_category "Groceries" "Carrefour" st) = Ok (true, st')
    /\ In "Carrefour" (keywords_of "Food" st')
    /\ ~ In "Carrefour" (keywords_of "Groceries" st')
    /\ (forall c kws, dict_get c (categories st') = Some kws ->
                      In "Carrefour" kws -> c = "Food").
Proof.
  intros st.
  apply (@keyword_moves_to_new_category "Groceries" "Food" "Carrefour" ["kfc"] st).
  - discriminate.
  - discriminate.
  - reflexivity.
  - intros c kws. simpl.
    destruct (String.eqb c "Groceries") eqn:E1.
    + intros _ _. now apply String.eqb_eq.
    + destruct (String.eqb c "Food"); [|discriminate].
      intros [= <-] [H|[]]. discriminate.
Defined.

(** C2 as the specification words it fails on a blank keyword: the removal
    takes it out of C1 and the addition refuses it, so it ends up in no
    category at all. *)
Lemma keyword_moves_blank_counterexample :
  ~ (forall (category1 category2 keyword : string) (st : session),
       category2 <> category1 ->
       In keyword (keywords_of category1 st) ->
       (forall c kws, dict_get c (categories st) = Some kws ->
                      In keyword kws -> c = category1) ->
       exists b st',
         add_keyword_to_category category2 keyword
           (remove_keyword_from_category category1 keyword st) = Ok (b, st')
         /\ In keyword (keywords_of category2 st')
         /\ ~ In keyword (keywords_of category1 st')).
Proof.
  intros H.
  destruct (H "Groceries" "Food" ""
              {| categories := [("Groceries", [""]); ("Food", [])];
                 disk := NoFile; writes := 0 |})
    as (b & st' & Hrun & Hin & _).
  - discriminate.
  - simpl. now left.
  - intros c kws. simpl.
    destruct (String.eqb c "Groceries") eqn:E1.
    + intros _ _. now apply String.eqb_eq.
    + destruct (String.eqb c "Food"); [|discriminate].
      intros [= <-] [].
  - vm_compute in Hrun. injection Hrun as <- <-. vm_compute in Hin. exact Hin.
Qed.

(** ** The rule store: the form of the stored keywords *)

Lemma keywords_trimmed_append keywords keyword :
  keywords_trimmed keywords ->
  ~ In (strip keyword) keywords ->
  keywords_trimmed (keywords ++ [strip keyword]).
Proof.
  intros [Hnd Htr] Hnin. split.
  - apply NoDup_rev in Hnd. rewrite <- (rev_involutive (_ ++ _)).
    apply NoDup_rev. rewrite rev_app_distr. simpl.
    constructor; [now rewrite <- in_rev | exact Hnd].
  - apply Forall_app. split; [exact Htr|].
    constructor; [apply strip_idem | constructor].
Qed.

Lemma keywords_trimmed_filter (f : string -> bool) keywords :
  keywords_trimmed keywords -> keywords_trimmed (filter f keywords).
Proof.
  intros [Hnd Htr]. split.
  - now apply NoDup_filter.
  - rewrite Forall_forall in *. intros kw Hin.
    apply filter_In in Hin. now apply Htr.
Qed.

Lemma store_all_get (P : list string -> Prop) d category keywords :
  store_all P d -> dict_get category d = Some keywords -> P keywords.
Proof.
  unfold store_all. rewrite Forall_forall. intros H Hget.
  exact (H _ (dict_get_In _ _ Hget)).
Qed.

(** C8, as the code has it: the keywords are stored trimmed, in the case
    in which they were given, and each once in the list of its category;
    [add_keyword_to_category] keeps it so. *)
Theorem add_keyword_keeps_trimmed
    (category keyword : string) (st st' : session) (added : bool) :
  store_all keywords_trimmed (categories st) ->
  add_keyword_to_category category keyword st = Ok (added, st') ->
  store_all keywords_trimmed (categories st').
Proof.
  intros Hst. rewrite add_keyword_unfold.
  destruct (is_empty (strip keyword)); [now intros [= _ <-]|].
  destruct (dict_get category (categories st)) as [keywords|] eqn:Hget;
    [|discriminate].
  destruct (contains keywords (strip keyword)) eqn:Hc; [now intros [= _ <-]|].
  intros [= _ <-]. simpl.
  apply dict_set_Forall; [exact Hst|]. simpl.
  apply keywords_trimmed_append.
  - exact (store_all_get _ Hst Hget).
  - now apply contains_not_In.
Qed.

Lemma add_keyword_keeps_trimmed_witness :
  store_all keywords_trimmed
    [("Groceries", ["carrefour"; "Lulu Hypermarket"]); ("Food", [])].
Proof.
  apply (@add_keyword_keeps_trimmed "Groceries" "  Lulu Hypermarket "
           {| categories := [("Groceries", ["carrefour"]); ("Food", [])];
              disk := NoFile; writes := 0 |}
           {| categories :=
                [("Groceries", ["carrefour"; "Lulu Hypermarket"]); ("Food", [])];
              disk := Snapshot
                [("Groceries", ["carrefour"; "Lulu Hypermarket"]); ("Food", [])];
              writes := 1 |} true).
  - repeat constructor; simpl; intuition discriminate.
  - reflexivity.
Defined.

(** The removal keeps the keywords trimmed and single as well. *)
Lemma remove_keyword_keeps_trimmed (category keyword : string) (st : session) :
  store_all keywords_trimmed (categories st) ->
  store_all keywords_trimmed
    (categories (remove_keyword_from_category category keyword st)).
Proof.
  intros Hst.
  destruct (remove_keyword_cases category keyword st) as [[_ ->]|[_ ->]];
    [exact Hst|].
  simpl. apply dict_set_Forall; [exact Hst|]. simpl.
  apply keywords_trimmed_filter.
  unfold keywords_of, dict_get_default.
  destruct (dict_get category (categories st)) as [keywords|] eqn:Hget.
  - exact (store_all_get _ Hst Hget).
  - split; constructor.
Qed.

(** C8 as the specification words it fails: a keyword is stored in the
    case in which it was given, not case-folded. *)
Lemma add_keyword_not_case_folded_counterexample :
  ~ (forall (category keyword : string) (st st' : session) (added : bool),
       store_all keywords_normalized (categories st) ->
       add_keyword_to_category category keyword st = Ok (added, st') ->
       store_all keywords_normalized (categories st')).
Proof.
  intros H.
  specialize (H "Food" "Carrefour"
                {| categories := [("Food", [])]; disk := NoFile; writes := 0 |}
                {| categories := [("Food", ["Carrefour"])];
                   disk := Snapshot [("Food", ["Carrefour"])];
                   writes := 1 |} true).
  assert (Hpost : store_all keywords_normalized [("Food", ["Carrefour"])]).
  { apply H; [|reflexivity]. repeat constructor. }
  inversion Hpost as [|item d [_ Hnorm] _]; subst.
  inversion Hnorm as [|kw kws Hkw _]; subst.
  vm_compute in Hkw. discriminate.
Qed.

(** ** The rule store: loading *)

(** C5, as the code has it: the load returns the snapshot that the rule
    file holds; with no rule file it does not fail, it keeps the store of
    the session, which in a new session is a default store of one category
    without keywords; on a rule file that cannot be read or parsed it
    raises, there is no fallback to the default store. *)
Theorem load_categories_spec :
  (forall sess d, load_categories sess (Snapshot d) = Ok d)
  /\ (forall d, load_categories (Some d) NoFile = Ok d)
  /\ (exists name, load_categories None NoFile = Ok [(name, [])])
  /\ (forall sess, load_categories sess Corrupt = Raise JSONDecodeError).
Proof.
  repeat split. now exists "UNcategorized".
Qed.

(** C5 as the specification words it fails: a corrupt rule file makes the
    load raise. *)
Lemma load_categories_corrupt_counterexample :
  load_categories None Corrupt = Raise JSONDecodeError
  /\ ~ (forall f : file, f = NoFile \/ f = Corrupt ->
          load_categories None f = Ok [("Uncategorised", [])]).
Proof.
  split; [reflexivity|].
  intros H. specialize (H Corrupt (or_intror eq_refl)). discriminate.
Qed.

(** ** The matcher *)

Lemma applies_iff (details category : string) (keywords : list string) :
  applies details (category, keywords) = true <->
  category <> "Uncategorised" /\ keyword_matches details keywords.
Proof.
  unfold applies, keyword_matches.
  rewrite andb_true_iff, negb_true_iff, orb_false_iff, String.eqb_neq, contains_In,
    in_map_iff.
  split.
  - intros [[Hc _] (kw & E & Hin)]. split; [exact Hc|].
    exists kw. split; [exact Hin|]. now rewrite <- !strip_lower.
  - intros [Hc (kw & Hin & E)]. split; [split; [exact Hc|]|].
    + destruct keywords; [destruct Hin | reflexivity].
    + exists kw. split; [|exact Hin]. now rewrite !strip_lower.
Qed.

Lemma last_match_None (cats : categories_t) (details : string) :
  last_match cats details = None <->
  forall item, In item cats -> applies details item = false.
Proof.
  induction cats as [|item cats IH]; simpl.
  - split; [intros _ item [] | reflexivity].
  - destruct (last_match cats details) as [c|].
    + split; [discriminate|]. intros H.
      assert (Some c = None) as E by (apply IH; intros; apply H; now right).
      discriminate.
    + destruct (applies details item) eqn:E.
      * split; [discriminate|]. intros H. rewrite H in E by now left. discriminate.
      * split; [|reflexivity]. intros _ item' [<-|Hin]; [exact E|].
        now apply IH.
Qed.

Lemma last_match_Some (cats : categories_t) (details category : string) :
  last_match cats details = Some category ->
  exists keywords, In (category, keywords) cats
                   /\ applies details (category, keywords) = true.
Proof.
  induction cats as [|[c kws] cats IH]; simpl; [discriminate|].
  destruct (last_match cats details) as [c'|].
  - intros [= ->]. destruct (IH eq_refl) as (keywords & Hin & Ha).
    exists keywords. split; [now right | exact Ha].
  - destruct (applies details (c, kws)) eqn:E; [|discriminate].
    intros [= <-]. exists kws. split; [now left | exact E].
Qed.

(** The last item that applies decides, whatever comes before it. *)
Lemma last_match_app (cats1 cats2 : categories_t) (item : string * list string)
    (details : string) :
  applies details item = true ->
  (forall item', In item' cats2 -> applies details item' = false) ->
  last_match (cats1 ++ item :: cats2) details = Some (fst item).
Proof.
  intros Ha Hrest. apply last_match_None in Hrest.
  induction cats1 as [|item1 cats1 IH]; simpl.
  - now rewrite Hrest, Ha.
  - now rewrite IH.
Qed.

Section Matcher.

Variables float datetime : Type.
Implicit Types (row : transaction float datetime)
  (df : list (transaction float datetime)) (cats : categories_t).

Lemma set_Category_twice (c c' : string) row :
  set_Category c (set_Category c' row) = set_Category c row.
Proof. reflexivity. Qed.

Lemma categorize_with_rows df (item : string * list string) :
  categorize_with df item = map (fun row => categorize_row_with row item) df.
Proof.
  destruct item as [category keywords].
  unfold categorize_with, categorize_row_with, applies.
  destruct (String.eqb category "Uncategorised" || no_keywords keywords); simpl.
  - now rewrite map_id.
  - reflexivity.
Qed.

(** The two nested loops, categories outside and rows inside, do to each
    row what the loop over the categories does to that row alone. *)
Lemma fold_categorize_with_rows cats df :
  fold_left categorize_with cats df =
    map (fun row => fold_left categorize_row_with cats row) df.
Proof.
  revert df. induction cats as [|item cats IH]; intros df; simpl.
  - now rewrite map_id.
  - now rewrite IH, categorize_with_rows, map_map.
Qed.

Lemma fold_categorize_row cats row :
  fold_left categorize_row_with cats row =
    match last_match cats (Details row) with
    | Some category => set_Category category row
    | None => row
    end.
Proof.
  revert row. induction cats as [|item cats IH]; intros row; simpl; [reflexivity|].
  rewrite IH. unfold categorize_row_with.
  destruct (applies (Details row) item); simpl;
    destruct (last_match cats (Details row)); reflexivity.
Qed.

(** What [categorize_transactions] computes, row by row. *)
Lemma categorize_transactions_rows cats df :
  categorize_transactions cats df =
    map (fun row => set_Category (assigned cats (Details row)) row) df.
Proof.
  unfold categorize_transactions.
  rewrite fold_categorize_with_rows, map_map.
  apply map_ext. intros row. rewrite fold_categorize_row. unfold assigned. simpl.
  destruct (last_match cats (Details row)); reflexivity.
Qed.

Lemma assigned_Uncategorised cats (details : string) :
  assigned cats details = "Uncategorised" <-> last_match cats details = None.
Proof.
  unfold assigned. destruct (last_match cats details) as [c|] eqn:E.
  - split; [|discriminate]. intros ->.
    destruct (last_match_Some _ _ E) as (kws & _ & Ha).
    apply applies_iff in Ha. now destruct Ha as [Hc _].
  - tauto.
Qed.

(** C1, as the code has it: [categorize_transactions] leaves a single
    transaction in ["Uncategorised"] if and only if no category of the store
    other than ["Uncategorised"] itself, which the loop skips, has a keyword
    whose trimmed, case-folded form is that of the details. *)
Theorem categorize_uncategorised_iff cats (T : transaction float datetime) :
  map (@Category float datetime) (categorize_transactions cats [T])
    = [Some "Uncategorised"]
  <->
  ~ exists category keywords,
      In (category, keywords) cats
      /\ category <> "Uncategorised"
      /\ keyword_matches (Details T) keywords.
Proof.
  rewrite categorize_transactions_rows. simpl.
  split.
  - intros [= E]. apply assigned_Uncategorised in E.
    intros (category & keywords & Hin & Hc & Hm).
    rewrite last_match_None in E. specialize (E _ Hin).
    assert (applies (Details T) (category, keywords) = true) as Ha
      by now apply applies_iff.
    congruence.
  - intros Hno. do 2 f_equal. apply assigned_Uncategorised, last_match_None.
    intros [category keywords] Hin.
    destruct (applies (Details T) (category, keywords)) eqn:Ha; [|reflexivity].
    apply applies_iff in Ha. destruct Ha as [Hc Hm].
    elim Hno. now exists category, keywords.
Qed.

(** C6, as the code has it: when the details of a transaction match
    keywords of two different categories, the transaction gets the last
    category, in the iteration order of the store, among those other than
    ["Uncategorised"] that have a matching keyword; the category named
    ["Uncategorised"] is skipped by the loop, and the function returns on
    such a store as on any other. *)
Theorem categorize_last_match_wins
    (cats1 cats2 : categories_t) (category other : string)
    (keywords other_keywords : list string) (T : transaction float datetime) :
  In (other, other_keywords) (cats1 ++ (category, keywords) :: cats2) ->
  other <> category ->
  keyword_matches (Details T) other_keywords ->
  category <> "Uncategorised" ->
  keyword_matches (Details T) keywords ->
  (forall c kws, In (c, kws) cats2 -> c <> "Uncategorised" ->
                 ~ keyword_matches (Details T) kws) ->
  map (@Category float datetime)
    (categorize_transactions (cats1 ++ (category, keywords) :: cats2) [T])
  = [Some category].
Proof.
  intros _ _ _ Hc Hm Hlast.
  rewrite categorize_transactions_rows. simpl. do 2 f_equal.
  unfold assigned.
  rewrite (@last_match_app cats1 cats2 (category, keywords) (Details T)).
  - reflexivity.
  - now apply applies_iff.
  - intros [c kws] Hin.
    destruct (applies (Details T) (c, kws)) eqn:Ha; [|reflexivity].
    apply applies_iff in Ha. destruct Ha as [Hc' Hm'].
    elim (Hlast _ _ Hin Hc' Hm').
Qed.

(** C7: [categorize_transactions] is idempotent: categorising the result
    of a categorisation with the same store gives that result again. *)
Theorem categorize_transactions_idempotent cats df :
  categorize_transactions cats (categorize_transactions cats df)
    = categorize_transactions cats df.
Proof.
  rewrite !categorize_transactions_rows, map_map.
  apply map_ext. intros row. reflexivity.
Qed.

End Matcher.

(** A transaction of the sample instance: amounts in [nat], dates as text. *)
Lemma categorize_last_match_wins_witness :
  let T := {| Date := "05 Mar 2024"; Details := " CARREFOUR City Centre";
              Amount := 120; Debit_Credit := "Debit"; Status := "Settled";
              Category := None |} in
  map (@Category nat string)
    (categorize_transactions
       [("Groceries", ["carrefour city centre"]);
        ("Food", ["kfc"; "Carrefour City Centre "]);
        ("Uncategorised", ["carrefour city centre"]);
        ("Travel", ["emirates"])] [T])
  = [Some "Food"].
Proof.
  intros T.
  apply (@categorize_last_match_wins nat string
           [("Groceries", ["carrefour city centre"])]
           [("Uncategorised", ["carrefour city centre"]); ("Travel", ["emirates"])]
           "Food" "Groceries"
           ["kfc"; "Carrefour City Centre "] ["carrefour city centre"] T).
  - simpl. now left.
  - discriminate.
  - exists "carrefour city centre". split; [now left | reflexivity].
  - discriminate.
  - exists "Carrefour City Centre ". split; [right; now left | reflexivity].
  - intros c kws [[= <- <-]|[[= <- <-]|[]]] Hc.
    + now elim Hc.
    + intros (kw & [<-|[]] & E). vm_compute in E. discriminate.
Defined.

(** C6 as the specification words it fails when the last category with a
    matching keyword is ["Uncategorised"]: the loop skips it and the
    category before it keeps the transaction. *)
Lemma categorize_last_match_counterexample :
  ~ (forall (cats1 cats2 : categories_t) (category other : string)
            (keywords other_keywords : list string) (T : transaction nat string),
       In (other, other_keywords) (cats1 ++ (category, keywords) :: cats2) ->
       other <> category ->
       keyword_matches (Details T) other_keywords ->
       keyword_matches (Details T) keywords ->
       (forall c kws, In (c, kws) cats2 -> ~ keyword_matches (Details T) kws) ->
       map (@Category nat string)
         (categorize_transactions (cats1 ++ (category, keywords) :: cats2) [T])
       = [Some category]).
Proof.
  intros H.
  specialize (H [("Groceries", ["carrefour"])] [] "Uncategorised" "Groceries"
                ["carrefour"] ["carrefour"]
                {| Date := "05 Mar 2024"; Details := "Carrefour";
                   Amount := 120; Debit_Credit := "Debit"; Status := "Settled";
                   Category := None |}).
  assert (Hm : keyword_matches "Carrefour" ["carrefour"])
    by (exists "carrefour"; split; [now left | reflexivity]).
  discriminate H.
  - simpl. now left.
  - discriminate.
  - exact Hm.
  - exact Hm.
  - intros c kws [].
Qed.

(** C1 as the specification words it fails on a store that has keywords
    under ["Uncategorised"], as it has once a row was moved to that
    category: the loop skips the category and the transaction stays in it,
    although a category of the store has its details as a keyword. *)
Lemma categorize_uncategorised_counterexample :
  ~ (forall (cats : categories_t) (T : transaction nat string),
       map (@Category nat string) (categorize_transactions cats [T])
         = [Some "Uncategorised"]
       <->
       ~ exists category keywords,
           In (category, keywords) cats
           /\ keyword_matches (Details T) keywords).
Proof.
  intros H.
  destruct (H [("Groceries", ["carrefour"]); ("Uncategorised", ["atm withdrawal"])]
              {| Date := "05 Mar 2024"; Details := "ATM Withdrawal";
                 Amount := 500; Debit_Credit := "Debit"; Status := "Settled";
                 Category := None |}) as [Hno _].
  apply Hno; [reflexivity|].
  exists "Uncategorised", ["atm withdrawal"]. split; [right; now left|].
  exists "atm withdrawal". split; [now left | reflexivity].
Qed.

(** The two first scenarios of the specification. *)
Example scenario_1 :
  map (@Category nat string)
    (categorize_transactions [("Groceries", ["carrefour"]); ("Uncategorised", [])]
       [{| Date := "05 Mar 2024"; Details := "Carrefour  "; Amount := 42;
           Debit_Credit := "Debit"; Status := ""; Category := None |}])
  = [Some "Groceries"].
Proof. reflexivity. Qed.

Example scenario_2 :
  map (@Category nat string)
    (categorize_transactions [("Groceries", ["carrefour"]); ("Uncategorised", [])]
       [{| Date := "05 Mar 2024"; Details := "Unknown Shop"; Amount := 42;
           Debit_Credit := "Debit"; Status := ""; Category := None |}])
  = [Some "Uncategorised"].
Proof. reflexivity. Qed.

(** * Further properties of the rule store *)

Section DictMore.

Variable V : Type.
Implicit Types (d : dict V) (k : string) (v : V).

Lemma dict_get_Some_keys k v d : dict_get k d = Some v -> In k (dict_keys d).
Proof.
  intros Hget. destruct (in_dec string_dec k (dict_keys d)) as [Hin|Hout];
    [exact Hin|].
  apply dict_get_None_keys in Hout. congruence.
Qed.

Lemma dict_set_same k v d : dict_get k d = Some v -> dict_set k v d = d.
Proof.
  induction d as [|[k0 v0] d IH]; simpl; [discriminate|].
  destruct (String.eqb k k0) eqn:E.
  - apply String.eqb_eq in E. now intros [= ->]; subst.
  - intros H. now rewrite IH.
Qed.

Lemma dict_set_twice k v v' d : dict_set k v (dict_set k v' d) = dict_set k v d.
Proof.
  induction d as [|[k0 v0] d IH]; simpl.
  - now rewrite String.eqb_refl.
  - destruct (String.eqb k k0) eqn:E; simpl.
    + now rewrite String.eqb_refl.
    + now rewrite E, IH.
Qed.

Lemma dict_wf_In_get k v d : dict_wf d -> In (k, v) d -> dict_get k d = Some v.
Proof.
  unfold dict_wf, dict_keys.
  induction d as [|[k0 v0] d IH]; simpl; [intros _ []|].
  intros Hwf Hin. inversion Hwf as [|? ? Hout Hwf']; subst.
  destruct Hin as [[= -> ->]|Hin].
  - now rewrite String.eqb_refl.
  - destruct (String.eqb k k0) eqn:E; [|now apply IH].
    apply String.eqb_eq in E. subst k0. elim Hout.
    change k with (fst (k, v)). now apply in_map.
Qed.

End DictMore.

Lemma add_keyword_cases (category keyword : string) (st st' : session) (added : bool) :
  add_keyword_to_category category keyword st = Ok (added, st') ->
  (added = false /\ st' = st)
  \/ (exists keywords,
        dict_get category (categories st) = Some keywords
        /\ strip keyword <> EmptyString
        /\ ~ In (strip keyword) keywords
        /\ added = true
        /\ st' = {| categories :=
                      dict_set category (keywords ++ [strip keyword]) (categories st);
                    disk :=
                      Snapshot (dict_set category (keywords ++ [strip keyword])
                                         (categories st));
                    writes := S (writes st) |}).
Proof.
  rewrite add_keyword_unfold.
  destruct (is_empty (strip keyword)) eqn:He; [intros [= <- <-]; now left|].
  destruct (dict_get category (categories st)) as [keywords|]; [|discriminate].
  destruct (contains keywords (strip keyword)) eqn:Hc; [intros [= <- <-]; now left|].
  intros [= <- <-]. right. exists keywords.
  apply is_empty_false in He. apply contains_not_In in Hc. now repeat split.
Qed.

(** A removal that changes something finds its category in the store. *)
Lemma remove_keyword_changed_present (category keyword : string) (st : session) :
  filter (keeps keyword) (keywords_of category st) <> keywords_of category st ->
  exists keywords, dict_get category (categories st) = Some keywords.
Proof.
  unfold keywords_of, dict_get_default.
  destruct (dict_get category (categories st)) as [keywords|].
  - intros _. now exists keywords.
  - simpl. intros H. now elim H.
Qed.

Lemma add_keyword_keys (category keyword : string) (st st' : session) (added : bool) :
  add_keyword_to_category category keyword st = Ok (added, st') ->
  dict_keys (categories st') = dict_keys (categories st).
Proof.
  intros H. apply add_keyword_cases in H.
  destruct H as [[_ ->]|(keywords & Hget & _ & _ & _ & ->)]; [reflexivity|].
  simpl. apply dict_keys_set_present. exact (dict_get_Some_keys _ _ Hget).
Qed.

Lemma remove_keyword_keys (category keyword : string) (st : session) :
  dict_keys (categories (remove_keyword_from_category category keyword st)) =
    dict_keys (categories st).
Proof.
  destruct (remove_keyword_cases category keyword st) as [[_ ->]|[Hch ->]];
    [reflexivity|].
  simpl. apply remove_keyword_changed_present in Hch. destruct Hch as [kws Hget].
  apply dict_keys_set_present. exact (dict_get_Some_keys _ _ Hget).
Qed.

Lemma add_keyword_synced (category keyword : string) (st st' : session) (added : bool) :
  synced st ->
  add_keyword_to_category category keyword st = Ok (added, st') ->
  synced st'.
Proof.
  intros Hs H. apply add_keyword_cases in H.
  destruct H as [[_ ->]|(keywords & _ & _ & _ & _ & ->)]; [exact Hs|reflexivity].
Qed.

Lemma remove_keyword_synced (category keyword : string) (st : session) :
  synced st -> synced (remove_keyword_from_category category keyword st).
Proof.
  intros Hs.
  destruct (remove_keyword_cases category keyword st) as [[_ ->]|[_ ->]];
    [exact Hs|reflexivity].
Qed.

Lemma add_keyword_writes (category keyword : string) (st st' : session) (added : bool) :
  add_keyword_to_category category keyword st = Ok (added, st') ->
  (added = false /\ st' = st) \/ (added = true /\ writes st' = S (writes st)).
Proof.
  intros H. apply add_keyword_cases in H.
  destruct H as [[-> ->]|(keywords & _ & _ & _ & -> & ->)]; [now left|now right].
Qed.

Lemma remove_keyword_writes (category keyword : string) (st : session) :
  remove_keyword_from_category category keyword st = st
  \/ writes (remove_keyword_from_category category keyword st) = S (writes st).
Proof.
  destruct (remove_keyword_cases category keyword st) as [[_ ->]|[_ ->]];
    [now left|now right].
Qed.

(** X1: an addition that returns touches one category only: the store
    keeps its categories, in their order, and the keyword lists of all the
    other categories. *)
Theorem add_keyword_touches_one_category
    (category keyword : string) (st st' : session) (added : bool) :
  add_keyword_to_category category keyword st = Ok (added, st') ->
  dict_keys (categories st') = dict_keys (categories st)
  /\ forall c, c <> category ->
               dict_get c (categories st') = dict_get c (categories st).
Proof.
  intros H. split; [exact (add_keyword_keys _ _ _ H)|].
  intros c Hc. apply add_keyword_cases in H.
  destruct H as [[_ ->]|(keywords & _ & _ & _ & _ & ->)]; [reflexivity|].
  simpl. apply dict_get_set_other. congruence.
Qed.

Lemma add_keyword_touches_one_category_witness :
  let st := {| categories := [("Groceries", ["carrefour"]); ("Food", [])];
               disk := NoFile; writes := 0 |} in
  let st' := {| categories := [("Groceries", ["carrefour"]); ("Food", ["KFC"])];
                disk := Snapshot [("Groceries", ["carrefour"]); ("Food", ["KFC"])];
                writes := 1 |} in
  dict_keys (categories st') = dict_keys (categories st)
  /\ forall c, c <> "Food" ->
               dict_get c (categories st') = dict_get c (categories st).
Proof.
  intros st st'.
  exact (@add_keyword_touches_one_category "Food" " KFC" st st' true eq_refl).
Defined.

(** X2: a removal never creates or deletes a category, and keeps the order
    of the categories. *)
Theorem remove_keyword_keeps_categories (category keyword : string) (st : session) :
  dict_keys (categories (remove_keyword_from_category category keyword st)) =
    dict_keys (categories st).
Proof. apply remove_keyword_keys. Qed.

(** X3: once a keyword has been added to a category, adding it again to
    that category, with whatever blanks around it, returns [False] and
    changes neither the store nor the rule file. *)
Theorem add_keyword_twice (category keyword keyword' : string) (st st' : session) :
  add_keyword_to_category category keyword st = Ok (true, st') ->
  strip keyword' = strip keyword ->
  add_keyword_to_category category keyword' st' = Ok (false, st').
Proof.
  intros H Hk. apply add_keyword_cases in H.
  destruct H as [[[=] _]|(keywords & _ & _ & _ & _ & ->)].
  apply add_keyword_skips with (keywords := keywords ++ [strip keyword]).
  - simpl. apply dict_get_set_same.
  - right. rewrite Hk. apply in_or_app. right. now left.
Qed.

Lemma add_keyword_twice_witness :
  let st' := {| categories := [("Groceries", ["carrefour"]); ("Food", ["KFC"])];
                disk := Snapshot [("Groceries", ["carrefour"]); ("Food", ["KFC"])];
                writes := 1 |} in
  add_keyword_to_category "Food" "KFC  " st' = Ok (false, st').
Proof.
  intros st'.
  apply (@add_keyword_twice "Food" " KFC" "KFC  "
           {| categories := [("Groceries", ["carrefour"]); ("Food", [])];
              disk := NoFile; writes := 0 |} st');
    reflexivity.
Defined.

(** X4: removing a keyword twice is removing it once: the second removal
    finds nothing and writes nothing. *)
Theorem remove_keyword_idempotent (category keyword : string) (st : session) :
  remove_keyword_from_category category keyword
    (remove_keyword_from_category category keyword st)
  = remove_keyword_from_category category keyword st.
Proof.
  set (st1 := remove_keyword_from_category category keyword st).
  destruct (remove_keyword_cases category keyword st1) as [[_ E]|[Hch _]];
    [exact E|].
  elim Hch. unfold st1. rewrite remove_keyword_same.
  generalize (keywords_of category st). intros l.
  induction l as [|kw l IH]; simpl; [reflexivity|].
  destruct (keeps keyword kw) eqn:E; simpl; [|exact IH].
  now rewrite E, IH.
Qed.

(** X5: in a category none of whose keywords has the normalised form of
    [keyword], adding that keyword and then removing it gives back the
    store as it was, with the rule file written twice and holding that
    store. *)
Theorem add_then_remove_restores
    (category keyword : string) (keywords : list string) (st : session) :
  dict_get category (categories st) = Some keywords ->
  strip keyword <> EmptyString ->
  (forall kw, In kw keywords -> normalize kw <> normalize keyword) ->
  exists st1,
    add_keyword_to_category category keyword st = Ok (true, st1)
    /\ remove_keyword_from_category category keyword st1 =
         {| categories := categories st;
            disk := Snapshot (categories st);
            writes := S (S (writes st)) |}.
Proof.
  intros Hget Hne Hnone.
  assert (Hfresh : ~ In (strip keyword) keywords).
  { intros Hin. apply (Hnone _ Hin). apply normalize_strip. }
  eexists. split; [exact (add_keyword_appends category keyword st Hget Hne Hfresh)|].
  assert (Hfilter : filter (keeps keyword) (keywords ++ [strip keyword]) = keywords).
  { rewrite filter_app. simpl. unfold keeps at 2.
    rewrite normalize_strip, String.eqb_refl. simpl. rewrite app_nil_r.
    apply forallb_filter_id. apply forallb_forall. intros kw Hin.
    unfold keeps. apply negb_true_iff, String.eqb_neq. now apply Hnone. }
  rewrite remove_keyword_unfold. cbv zeta.
  unfold keywords_of, dict_get_default. simpl categories.
  rewrite dict_get_set_same, Hfilter.
  replace (List.length keywords =? List.length (keywords ++ [strip keyword]))%nat
    with false
    by (symmetry; apply Nat.eqb_neq; rewrite length_app; simpl; lia).
  simpl. now rewrite dict_set_twice, (dict_set_same _ _ Hget).
Qed.

Lemma add_then_remove_restores_witness :
  let st := {| categories := [("Groceries", ["carrefour"]); ("Food", ["kfc"])];
               disk := NoFile; writes := 0 |} in
  exists st1,
    add_keyword_to_category "Food" " Pizza Hut" st = Ok (true, st1)
    /\ remove_keyword_from_category "Food" " Pizza Hut" st1 =
         {| categories := categories st;
            disk := Snapshot (categories st);
            writes := 2 |}.
Proof.
  intros st.
  apply (@add_then_remove_restores "Food" " Pizza Hut" ["kfc"] st).
  - reflexivity.
  - discriminate.
  - intros kw [<-|[]]. vm_compute. discriminate.
Defined.

(** * Further properties of the matcher *)

Lemma applies_normalize (details details' : string) (item : string * list string) :
  normalize details = normalize details' ->
  applies details item = applies details' item.
Proof.
  intros E. destruct item as [category keywords]. unfold applies.
  now rewrite !strip_lower, E.
Qed.

Lemma last_match_normalize (cats : categories_t) (details details' : string) :
  normalize details = normalize details' ->
  last_match cats details = last_match cats details'.
Proof.
  intros E. induction cats as [|item cats IH]; simpl; [reflexivity|].
  now rewrite IH, (applies_normalize _ _ item E).
Qed.

Lemma applies_no_keywords (details category : string) :
  applies details (category, []) = false.
Proof. unfold applies. simpl. now rewrite orb_true_r. Qed.

Lemma last_match_snoc_empty (cats : categories_t) (category details : string) :
  last_match (cats ++ [(category, [])]) details = last_match cats details.
Proof.
  induction cats as [|item cats IH]; simpl.
  - now rewrite applies_no_keywords.
  - now rewrite IH.
Qed.

Lemma dict_set_absent (V : Type) (k : string) (v : V) (d : dict V) :
  dict_get k d = None -> dict_set k v d = d ++ [(k, v)].
Proof.
  induction d as [|[k0 v0] d IH]; simpl; [reflexivity|].
  destruct (String.eqb k k0); [discriminate|].
  intros H. now rewrite IH.
Qed.

(** What the store looks like after the form "Add Category". *)
Lemma add_category_cases (add_button : bool) (new_category : string) (st : session) :
  (add_category add_button new_category st = (false, st)
   /\ (add_button = false \/ new_category = EmptyString
       \/ exists kws, dict_get new_category (categories st) = Some kws))
  \/ (add_button = true /\ new_category <> EmptyString
      /\ dict_get new_category (categories st) = None
      /\ add_category add_button new_category st =
           (true,
            {| categories := categories st ++ [(new_category, [])];
               disk := Snapshot (categories st ++ [(new_category, [])]);
               writes := S (writes st) |})).
Proof.
  unfold add_category. destruct add_button; simpl; [|left; split; auto].
  destruct (is_empty new_category) eqn:He; simpl.
  - left. split; [reflexivity|]. right. left.
    destruct new_category; [reflexivity|discriminate].
  - apply is_empty_false in He.
    destruct (dict_get new_category (categories st)) as [kws|] eqn:Hget.
    + left. split; [reflexivity|]. right. right. now exists kws.
    + right. repeat split; try assumption.
      unfold save_categories, set_categories. simpl.
      now rewrite dict_set_absent by exact Hget.
Qed.

Section MatcherMore.

Variables float datetime : Type.
Implicit Types (row : transaction float datetime)
  (df : list (transaction float datetime)) (cats : categories_t).

Lemma In_categorize cats df row' :
  In row' (categorize_transactions cats df) ->
  exists row, In row df
              /\ row' = set_Category (assigned cats (Details row)) row.
Proof.
  rewrite categorize_transactions_rows, in_map_iff.
  intros (row & E & Hin). now exists row.
Qed.

(** X6: [categorize_transactions] returns the rows it was given, in their
    order, each with its [Category] set and nothing else changed. *)
Theorem categorize_only_sets_category cats df :
  Forall2 (fun row row' => exists category, row' = set_Category category row)
          df (categorize_transactions cats df).
Proof.
  rewrite categorize_transactions_rows.
  induction df as [|row df IH]; simpl; constructor; [|exact IH].
  now exists (assigned cats (Details row)).
Qed.

(** X7: every row gets a category, and it is either ["Uncategorised"] or
    another category of the store that has a keyword with the normalised
    form of the row's details. *)
Theorem categorize_assigns_known_category cats df row' :
  In row' (categorize_transactions cats df) ->
  exists category,
    Category row' = Some category
    /\ (category = "Uncategorised"
        \/ (category <> "Uncategorised"
            /\ exists keywords, In (category, keywords) cats
                                /\ keyword_matches (Details row') keywords)).
Proof.
  intros H. apply In_categorize in H. destruct H as (row & _ & ->).
  exists (assigned cats (Details row)). split; [reflexivity|].
  unfold assigned. simpl.
  destruct (last_match cats (Details row)) as [c|] eqn:E; [|now left].
  right. destruct (last_match_Some _ _ E) as (kws & Hin & Ha).
  apply applies_iff in Ha. destruct Ha as [Hc Hm].
  split; [exact Hc|]. now exists kws.
Qed.

(** X8: the category of a row depends on the store and on the normalised
    form of its details only: rows whose details have the same normalised
    form get the same category, in one frame or in two. *)
Theorem categorize_same_details_same_category cats df1 df2 row1 row2 :
  In row1 (categorize_transactions cats df1) ->
  In row2 (categorize_transactions cats df2) ->
  normalize (Details row1) = normalize (Details row2) ->
  Category row1 = Category row2.
Proof.
  intros H1 H2. apply In_categorize in H1, H2.
  destruct H1 as (r1 & _ & ->), H2 as (r2 & _ & ->). simpl. intros E.
  unfold assigned. now rewrite (last_match_normalize cats _ _ E).
Qed.

(** X9: splitting the frame into debits and credits after the
    categorisation, as [main] does, gives the frames that categorising the
    debits and the credits of the file would give. *)
Theorem categorize_then_split cats df :
  debits (categorize_transactions cats df) = categorize_transactions cats (debits df)
  /\ credits (categorize_transactions cats df)
     = categorize_transactions cats (credits df).
Proof.
  rewrite !categorize_transactions_rows. unfold debits, credits.
  split; induction df as [|row df IH]; simpl; try reflexivity;
    destruct (String.eqb (Debit_Credit row) _); simpl; now rewrite IH.
Qed.

(** X10: with a store none of whose categories has a keyword, every
    transaction is left in ["Uncategorised"]. *)
Theorem categorize_without_keywords cats df :
  Forall (fun item => snd item = []) cats ->
  categorize_transactions cats df = map (set_Category "Uncategorised") df.
Proof.
  intros Hempty. rewrite categorize_transactions_rows.
  apply map_ext. intros row. f_equal.
  apply assigned_Uncategorised, last_match_None.
  intros [c kws] Hin. rewrite Forall_forall in Hempty.
  specialize (Hempty _ Hin). simpl in Hempty. subst kws.
  apply applies_no_keywords.
Qed.

(** X11: creating a category changes the category of no transaction. *)
Theorem add_category_keeps_categorisation
    (add_button : bool) (new_category : string) (st : session) df :
  categorize_transactions
    (categories (snd (add_category add_button new_category st))) df
  = categorize_transactions (categories st) df.
Proof.
  destruct (add_category_cases add_button new_category st)
    as [[-> _]|(_ & _ & _ & ->)]; [reflexivity|].
  simpl. rewrite !categorize_transactions_rows.
  apply map_ext. intros row. unfold assigned.
  now rewrite last_match_snoc_empty.
Qed.

End MatcherMore.

Lemma categorize_assigns_known_category_witness :
  let row' := {| Date := "05 Mar 2024"; Details := "Carrefour  "; Amount := 42;
                 Debit_Credit := "Debit"; Status := "";
                 Category := Some "Groceries" |} in
  exists category,
    Category row' = Some category
    /\ (category = "Uncategorised"
        \/ (category <> "Uncategorised"
            /\ exists keywords,
                 In (category, keywords)
                    [("Groceries", ["carrefour"]); ("Uncategorised", [])]
                 /\ keyword_matches (Details row') keywords)).
Proof.
  intros row'.
  apply (@categorize_assigns_known_category nat string
           [("Groceries", ["carrefour"]); ("Uncategorised", [])]
           [{| Date := "05 Mar 2024"; Details := "Carrefour  "; Amount := 42;
               Debit_Credit := "Debit"; Status := ""; Category := None |}] row').
  simpl. now left.
Defined.

Lemma categorize_same_details_same_category_witness :
  Category
    {| Date := "05 Mar 2024"; Details := "Carrefour  "; Amount := 42;
       Debit_Credit := "Debit"; Status := ""; Category := Some "Groceries" |}
  = Category
      {| Date := "07 Mar 2024"; Details := " CARREFOUR"; Amount := 7;
         Debit_Credit := "Debit"; Status := ""; Category := Some "Groceries" |}.
Proof.
  apply (@categorize_same_details_same_category nat string
           [("Groceries", ["carrefour"]); ("Uncategorised", [])]
           [{| Date := "05 Mar 2024"; Details := "Carrefour  "; Amount := 42;
               Debit_Credit := "Debit"; Status := ""; Category := None |}]
           [{| Date := "07 Mar 2024"; Details := " CARREFOUR"; Amount := 7;
               Debit_Credit := "Debit"; Status := ""; Category := None |}]).
  - simpl. now left.
  - simpl. now left.
  - reflexivity.
Defined.

Lemma categorize_without_keywords_witness :
  categorize_transactions [("UNcategorized", []); ("Food", [])]
    [{| Date := "05 Mar 2024"; Details := "KFC"; Amount := 42;
        Debit_Credit := "Debit"; Status := ""; Category := None |}]
  = [{| Date := "05 Mar 2024"; Details := "KFC"; Amount := 42;
        Debit_Credit := "Debit"; Status := "";
        Category := Some "Uncategorised" |}].
Proof.
  apply (@categorize_without_keywords nat string
           [("UNcategorized", []); ("Food", [])]).
  repeat constructor.
Defined.


(** * Further properties of the edits *)

(** On a category of the store and a keyword that is not blank the addition
    returns, and afterwards the category has the trimmed keyword. *)
Lemma add_keyword_present (category keyword : string) (keywords : list string)
    (st : session) :
  dict_get category (categories st) = Some keywords ->
  strip keyword <> EmptyString ->
  exists added st' keywords',
    add_keyword_to_category category keyword st = Ok (added, st')
    /\ dict_get category (categories st') = Some keywords'
    /\ In (strip keyword) keywords'
    /\ (forall c, c <> category ->
                  dict_get c (categories st') = dict_get c (categories st)).
Proof.
  intros Hget Hne.
  destruct (in_dec string_dec (strip keyword) keywords) as [Hin|Hout].
  - exists false, st, keywords. repeat split; try assumption.
    apply add_keyword_skips with (keywords := keywords); [exact Hget | now right].
  - eexists true, _, (keywords ++ [strip keyword]).
    split; [exact (add_keyword_appends category keyword st Hget Hne Hout)|].
    simpl. split; [apply dict_get_set_same|]. split.
    + apply in_or_app. right. now left.
    + intros c Hc. apply dict_get_set_other. congruence.
Qed.

Lemma filter_keeps_unmatched (details : string) (keywords : list string) :
  ~ keyword_matches details (filter (keeps details) keywords).
Proof.
  intros (kw & Hin & E). apply filter_In in Hin. destruct Hin as [_ Hk].
  unfold keeps in Hk. rewrite E, String.eqb_refl in Hk. discriminate.
Qed.

Lemma keyword_matches_stripped (details : string) (keywords : list string) :
  In (strip details) keywords -> keyword_matches details keywords.
Proof.
  intros Hin. exists (strip details). split; [exact Hin | apply normalize_strip].
Qed.

Section EditsMore.

Variables float datetime : Type.
Implicit Types (T : transaction float datetime).

(** X12: moving a row from one category to another category of the store
    takes effect on every transaction with the same normalised details:
    when no third category that the matcher reads has a keyword for these
    details, the next categorisation puts all of them in the new
    category. *)
Theorem sync_row_takes_effect
    (last_category new_category details : string) (keywords_new : list string)
    (st : session) :
  dict_wf (categories st) ->
  new_category <> last_category ->
  strip details <> EmptyString ->
  dict_get new_category (categories st) = Some keywords_new ->
  (forall c kws, In (c, kws) (categories st) -> c <> "Uncategorised" ->
                 keyword_matches details kws ->
                 c = last_category \/ c = new_category) ->
  exists rerun st',
    sync_row last_category new_category details st = Ok (rerun, st')
    /\ forall T, normalize (Details T) = normalize details ->
                 map (@Category float datetime)
                   (categorize_transactions (categories st') [T])
                 = [Some new_category].
Proof.
  intros Hwf Hne Hk Hget Honly.
  set (st1 := remove_keyword_from_category last_category details st).
  assert (Hwf1 : dict_wf (categories st1)) by now apply remove_keyword_wf.
  assert (Hget1 : dict_get new_category (categories st1) = Some keywords_new).
  { unfold st1. now rewrite remove_keyword_other. }
  destruct (add_keyword_present new_category details st1 Hget1 Hk)
    as (added & st' & kws' & Hrun & Hget' & Hin' & Hother).
  assert (Hwf' : dict_wf (categories st'))
    by exact (add_keyword_wf new_category details st1 Hwf1 Hrun).
  exists added, st'. split.
  { rewrite sync_row_changed by exact Hne. exact Hrun. }
  assert (HA : forall c kws, In (c, kws) (categories st') ->
                             applies details (c, kws) = true -> c = new_category).
  { intros c kws Hin Ha. apply applies_iff in Ha. destruct Ha as [Hc Hm].
    destruct (string_dec c new_category) as [E|Hcn]; [exact E|]. exfalso.
    pose proof (dict_wf_In_get _ _ Hwf' Hin) as Hg.
    rewrite Hother in Hg by exact Hcn.
    destruct (string_dec c last_category) as [->|Hcl].
    - apply keywords_of_get in Hg. unfold st1 in Hg.
      rewrite remove_keyword_same in Hg. subst kws.
      exact (@filter_keeps_unmatched _ _ Hm).
    - unfold st1 in Hg. rewrite remove_keyword_other in Hg by exact Hcl.
      apply dict_get_In in Hg.
      destruct (Honly _ _ Hg Hc Hm); contradiction. }
  intros T HT. rewrite categorize_transactions_rows. simpl. do 2 f_equal.
  unfold assigned. rewrite (last_match_normalize (categories st') _ _ HT).
  destruct (last_match (categories st') details) as [c|] eqn:E.
  - destruct (last_match_Some _ _ E) as (kws & Hin & Ha). exact (HA _ _ Hin Ha).
  - destruct (string_dec new_category "Uncategorised") as [->|Hnu];
      [reflexivity|]. exfalso.
    rewrite last_match_None in E.
    specialize (E _ (dict_get_In _ _ Hget')).
    assert (applies details (new_category, kws') = true) as Ha.
    { apply applies_iff. split; [exact Hnu|]. now apply keyword_matches_stripped. }
    congruence.
Qed.

End EditsMore.

Lemma sync_row_takes_effect_witness :
  let st := {| categories := [("Groceries", ["carrefour"; "Carrefour "]);
                              ("Food", ["kfc"]); ("Uncategorised", [])];
               disk := NoFile; writes := 0 |} in
  exists rerun st',
    sync_row "Groceries" "Food" "Carrefour" st = Ok (rerun, st')
    /\ forall T : transaction nat string,
         normalize (Details T) = normalize "Carrefour" ->
         map (@Category nat string) (categorize_transactions (categories st') [T])
         = [Some "Food"].
Proof.
  intros st.
  apply (@sync_row_takes_effect nat string "Groceries" "Food" "Carrefour" ["kfc"] st).
  - repeat constructor; simpl; intuition discriminate.
  - discriminate.
  - discriminate.
  - reflexivity.
  - intros c kws [[= <- <-]|[[= <- <-]|[[= <- <-]|[]]]] Hc Hm.
    + now left.
    + now right.
    + now elim Hc.
Defined.

(** X13: the form "Add Category" creates a category exactly when the
    button was pressed with a name that is not empty and not yet in the
    store; the new category then comes last, has no keyword and is written
    to the rule file; the categories that were there keep their place and
    their keywords, and when nothing is created nothing changes. *)
Theorem add_category_spec (add_button : bool) (new_category : string) (st : session) :
  let rerun := fst (add_category add_button new_category st) in
  let st' := snd (add_category add_button new_category st) in
  (rerun = true <->
     add_button = true /\ new_category <> EmptyString
     /\ dict_get new_category (categories st) = None)
  /\ (forall c kws, dict_get c (categories st) = Some kws ->
                    dict_get c (categories st') = Some kws)
  /\ dict_keys (categories st') =
       dict_keys (categories st) ++ (if rerun then [new_category] else [])
  /\ (rerun = true ->
        dict_get new_category (categories st') = Some []
        /\ synced st' /\ writes st' = S (writes st))
  /\ (rerun = false -> st' = st).
Proof.
  cbv zeta.
  destruct (add_category_cases add_button new_category st)
    as [[-> Hwhy]|(Hb & Hn & Hget & ->)]; simpl.
  - split; [|split; [|split; [|split]]].
    + split; [discriminate|]. intros (Hb & Hn & Hget).
      destruct Hwhy as [?|[?|[kws ?]]]; congruence.
    + auto.
    + now rewrite app_nil_r.
    + discriminate.
    + reflexivity.
  - split; [|split; [|split; [|split]]].
    + tauto.
    + intros c kws Hc. rewrite <- (dict_set_absent new_category [] _ Hget).
      rewrite dict_get_set_other; [exact Hc|]. intros ->. congruence.
    + unfold dict_keys. now rewrite map_app.
    + intros _. rewrite <- (dict_set_absent new_category [] _ Hget).
      now rewrite dict_get_set_same.
    + discriminate.
Qed.

(** X14: a category made with the form can take keywords: on a name that
    is not empty, once the form has run, [add_keyword_to_category] returns
    and does not raise. *)
Theorem add_category_then_add_keyword
    (new_category keyword : string) (st : session) :
  new_category <> EmptyString ->
  exists added st',
    add_keyword_to_category new_category keyword
      (snd (add_category true new_category st)) = Ok (added, st').
Proof.
  intros Hn.
  set (st1 := snd (add_category true new_category st)).
  assert (Hpresent : exists kws, dict_get new_category (categories st1) = Some kws).
  { unfold st1.
    destruct (add_category_cases true new_category st)
      as [[-> Hwhy]|(_ & _ & Hget & ->)]; simpl.
    - destruct Hwhy as [?|[?|?]]; [discriminate|contradiction|assumption].
    - exists []. rewrite <- (dict_set_absent new_category [] _ Hget).
      apply dict_get_set_same. }
  destruct Hpresent as [kws Hget].
  destruct (string_dec (strip keyword) EmptyString) as [He|Hne].
  - exists false, st1. apply add_keyword_skips with (keywords := kws);
      [exact Hget | now left].
  - destruct (add_keyword_present new_category keyword st1 Hget Hne)
      as (added & st' & _ & Hrun & _). now exists added, st'.
Qed.

Lemma add_category_then_add_keyword_witness :
  exists added st',
    add_keyword_to_category "Travel" "Emirates"
      (snd (add_category true "Travel"
              {| categories := [("Groceries", ["carrefour"])];
                 disk := NoFile; writes := 0 |})) = Ok (added, st').
Proof.
  apply (@add_category_then_add_keyword "Travel" "Emirates"). discriminate.
Defined.

(** * The ledger loader *)

Section MapOption.

Variables (A B : Type) (f : A -> option B).

Lemma map_option_fails (l : list A) :
  (exists x, In x l /\ f x = None) -> map_option f l = None.
Proof.
  intros (x & Hin & Hx). induction l as [|a l IH]; simpl; [destruct Hin|].
  destruct Hin as [->|Hin].
  - now rewrite Hx.
  - destruct (f a); [|reflexivity]. now rewrite IH.
Qed.

Lemma map_option_Forall2 (l : list A) (l' : list B) :
  map_option f l = Some l' -> Forall2 (fun x y => f x = Some y) l l'.
Proof.
  revert l'. induction l as [|a l IH]; simpl; intros l'.
  - intros [= <-]. constructor.
  - destruct (f a) as [b|] eqn:E; [|discriminate].
    destruct (map_option f l) as [bs|]; [|discriminate].
    intros [= <-]. constructor; [exact E | now apply IH].
Qed.

End MapOption.

Lemma Forall2_map_left (A B C : Type) (h : A -> B) (R : B -> C -> Prop)
    (l : list A) (l' : list C) :
  Forall2 R (map h l) l' -> Forall2 (fun x y => R (h x) y) l l'.
Proof.
  revert l'. induction l as [|a l IH]; simpl; intros l' H; inversion H; subst;
    constructor; auto.
Qed.

Lemma str_accessor_refuses (cells : list cell) :
  cells <> [] -> Forall (fun c => is_text c = false) cells ->
  str_accessor_applies cells = false.
Proof.
  intros Hne Hall. destruct cells as [|c cells]; [now elim Hne|].
  unfold str_accessor_applies.
  destruct (existsb is_text (c :: cells)) eqn:E; [|reflexivity].
  apply existsb_exists in E. destruct E as (x & Hin & Hx).
  rewrite Forall_forall in Hall. rewrite (Hall x Hin) in Hx. discriminate.
Qed.

Lemma reads_rows_applies (text : string) (item : string * list string) :
  reads_rows item = false -> applies text item = false.
Proof.
  destruct item as [category keywords]. unfold reads_rows, applies. simpl.
  now intros ->.
Qed.

Section LoaderFacts.

Variables float datetime : Type.
Variable float_value : string -> float.
Variable nan : float.
Variable to_datetime : string -> option datetime.
Variable NaT : datetime.

Implicit Types (row : frame_row float datetime)
  (df : list (frame_row float datetime)) (cats : categories_t).

(** The loop body of the matcher on the loaded frame, seen from one row. *)
Let row_step row (item : string * list string) : frame_row float datetime :=
  match row_Details row with
  | Str text => if applies text item then set_row_Category (fst item) row else row
  | NaN => row
  | Other _ => row
  end.

Lemma row_step_Details row item : row_Details (row_step row item) = row_Details row.
Proof.
  unfold row_step. destruct (row_Details row) as [|text|t] eqn:E; try exact E.
  destruct (applies text item); [simpl | ]; exact E.
Qed.

Lemma categorize_frame_with_skips df item :
  reads_rows item = false -> categorize_frame_with df item = Some df.
Proof.
  destruct item as [category keywords]. unfold reads_rows, categorize_frame_with.
  simpl. rewrite negb_false_iff. now intros ->.
Qed.

Lemma categorize_frame_with_raises df item :
  reads_rows item = true ->
  (exists row, In row df /\ is_text (row_Details row) = false) ->
  categorize_frame_with df item = None.
Proof.
  destruct item as [category keywords]. unfold reads_rows, categorize_frame_with.
  simpl. rewrite negb_true_iff. intros -> (row & Hin & Hrow).
  apply map_option_fails. exists row. split; [exact Hin|].
  destruct (row_Details row); [reflexivity | discriminate | reflexivity].
Qed.

Lemma categorize_frame_with_rows df df' item :
  categorize_frame_with df item = Some df' ->
  df' = map (fun row => row_step row item) df.
Proof.
  destruct (reads_rows item) eqn:Hr.
  - destruct item as [category keywords].
    unfold reads_rows in Hr. simpl in Hr. apply negb_true_iff in Hr.
    unfold categorize_frame_with. rewrite Hr. intros H.
    apply map_option_Forall2 in H.
    induction H as [|row row' df df' Hrow _ IH]; simpl; [reflexivity|].
    rewrite IH. f_equal. unfold row_step, applies. rewrite Hr. simpl.
    destruct (row_Details row); [discriminate | | discriminate].
    now injection Hrow as <-.
  - rewrite (categorize_frame_with_skips df item Hr). intros [= <-].
    rewrite <- (map_id df) at 1. apply map_ext. intros row. unfold row_step.
    destruct (row_Details row) as [|text|t]; try reflexivity.
    now rewrite (reads_rows_applies text item Hr).
Qed.

(** The fold of [categorize_frame], from any frame. *)
Let run cats (start : option (list (frame_row float datetime))) :=
  fold_left
    (fun acc item =>
       match acc with
       | None => None
       | Some df => categorize_frame_with df item
       end)
    cats start.

Lemma run_None cats : run cats None = None.
Proof. induction cats as [|item cats IH]; simpl; [reflexivity | exact IH]. Qed.

Lemma run_rows cats df df' :
  run cats (Some df) = Some df' ->
  df' = map (fun row => fold_left row_step cats row) df.
Proof.
  revert df. induction cats as [|item cats IH]; intros df; simpl.
  - intros [= <-]. now rewrite map_id.
  - destruct (categorize_frame_with df item) as [df1|] eqn:E.
    + intros H. apply IH in H. apply categorize_frame_with_rows in E.
      subst df1. now rewrite map_map in H.
    + now rewrite run_None.
Qed.

Lemma run_raises cats df :
  (exists row, In row df /\ is_text (row_Details row) = false) ->
  (exists item, In item cats /\ reads_rows item = true) ->
  run cats (Some df) = None.
Proof.
  revert df. induction cats as [|item cats IH]; intros df Hrow (it & Hin & Hit);
    [destruct Hin|]. simpl.
  destruct (reads_rows item) eqn:Hr.
  - rewrite (categorize_frame_with_raises df item Hr Hrow). apply run_None.
  - rewrite (categorize_frame_with_skips df item Hr). apply IH; [exact Hrow|].
    destruct Hin as [->|Hin]; [congruence|]. now exists it.
Qed.

Lemma run_skips cats df :
  (forall item, In item cats -> reads_rows item = false) ->
  run cats (Some df) = Some df.
Proof.
  induction cats as [|item cats IH]; intros H; simpl; [reflexivity|].
  rewrite (categorize_frame_with_skips df item) by (apply H; now left).
  apply IH. intros it Hit. apply H. now right.
Qed.

Lemma fold_row_step cats row :
  fold_left row_step cats row =
    match row_Details row with
    | Str text =>
        match last_match cats text with
        | Some category => set_row_Category category row
        | None => row
        end
    | NaN => row
    | Other _ => row
    end.
Proof.
  revert row. induction cats as [|item cats IH]; intros row; simpl.
  - destruct (row_Details row); reflexivity.
  - rewrite IH, row_step_Details. unfold row_step.
    destruct (row_Details row) as [|text|t]; try reflexivity.
    destruct (applies text item); simpl;
      destruct (last_match cats text); reflexivity.
Qed.

(** What the matcher returns on the loaded frame, when it returns. *)
Lemma categorize_frame_rows cats df df' :
  categorize_frame cats df = Some df' ->
  df' = map (fun row =>
               set_row_Category (category_of_cell cats (row_Details row)) row) df.
Proof.
  intros H. apply run_rows in H. rewrite map_map in H. subst df'.
  apply map_ext. intros row. rewrite fold_row_step. simpl.
  unfold category_of_cell, assigned.
  destruct (row_Details row) as [|text|t]; try reflexivity.
  destruct (last_match cats text); reflexivity.
Qed.

Lemma build_frame_Forall2 (rows : list csv_row) (amounts : list float)
    (dates : list datetime) :
  Forall2 (fun r a => amount_of_cell float_value nan (csv_Amount r) = Some a)
          rows amounts ->
  Forall2 (fun r d => date_of_cell to_datetime NaT (csv_Date r) = Some d)
          rows dates ->
  Forall2 (fun r t =>
             row_Details t = csv_Details r
             /\ row_Debit_Credit t = csv_Debit_Credit r
             /\ row_Status t = csv_Status r
             /\ amount_of_cell float_value nan (csv_Amount r) = Some (row_Amount t)
             /\ date_of_cell to_datetime NaT (csv_Date r) = Some (row_Date t))
          rows (build_frame rows amounts dates).
Proof.
  intros Ha. revert dates.
  induction Ha as [|r a rows amounts Hr _ IH]; intros dates Hd.
  - inversion Hd. constructor.
  - inversion Hd as [|? d ? dates' Hdate Hd']; subst. simpl.
    constructor; [now repeat split | now apply IH].
Qed.

Lemma convert_amounts_Forall2 (rows : list csv_row) (amounts : list float) :
  convert_amounts float_value nan (map csv_Amount rows) = Some amounts ->
  Forall2 (fun r a => amount_of_cell float_value nan (csv_Amount r) = Some a)
          rows amounts.
Proof.
  unfold convert_amounts.
  destruct (str_accessor_applies (map csv_Amount rows)); [|discriminate].
  intros H. apply map_option_Forall2 in H. now apply Forall2_map_left in H.
Qed.

Lemma convert_dates_Forall2 (rows : list csv_row) (dates : list datetime) :
  convert_dates to_datetime NaT (map csv_Date rows) = Some dates ->
  Forall2 (fun r d => date_of_cell to_datetime NaT (csv_Date r) = Some d)
          rows dates.
Proof.
  unfold convert_dates. intros H.
  apply map_option_Forall2 in H. now apply Forall2_map_left in H.
Qed.

(** On a frame of texts the matcher of the loader returns, and it is the
    matcher on transactions. *)
Lemma categorize_frame_with_text (df : list (transaction float datetime))
    (item : string * list string) :
  categorize_frame_with (map (@frame_of_transaction float datetime) df) item
  = Some (map (@frame_of_transaction float datetime) (categorize_with df item)).
Proof.
  destruct item as [category keywords].
  unfold categorize_frame_with, categorize_with.
  destruct (String.eqb category "Uncategorised" || no_keywords keywords);
    [reflexivity|].
  induction df as [|t df IH]; simpl; [reflexivity|].
  rewrite IH.
  destruct (contains (map (fun keyword => strip (lower keyword)) keywords)
                     (strip (lower (Details t)))); reflexivity.
Qed.

Lemma categorize_frame_text cats (df : list (transaction float datetime)) :
  categorize_frame cats (map (@frame_of_transaction float datetime) df)
  = Some (map (@frame_of_transaction float datetime)
              (categorize_transactions cats df)).
Proof.
  unfold categorize_frame, categorize_transactions.
  replace (map (set_row_Category "Uncategorised")
               (map (@frame_of_transaction float datetime) df))
    with (map (@frame_of_transaction float datetime)
              (map (set_Category "Uncategorised") df))
    by (rewrite !map_map; reflexivity).
  generalize (map (set_Category (float:=float) (datetime:=datetime)
                     "Uncategorised") df).
  clear df. induction cats as [|item cats IH]; intros df; simpl; [reflexivity|].
  now rewrite categorize_frame_with_text, IH.
Qed.

(** C9, as the code has it: when a cell of the Amount column is a text
    that [float()] refuses once its commas are taken out, the conversion of
    line 48 raises and [load_transactions] returns [None]: no frame is
    produced for the file, not even one of the rows before the bad one.  A
    cell that [pd.read_csv] has read as a missing value is not refused. *)
Theorem load_transactions_bad_amount (cats : categories_t) (rows : list csv_row) :
  (exists (row : csv_row) text,
     In row rows /\ csv_Amount row = Str text
     /\ PyFloat.accepts (remove_char "," text) = false) ->
  convert_amounts float_value nan (map csv_Amount rows) = None
  /\ load_transactions float_value nan to_datetime NaT cats rows = None.
Proof.
  intros (row & text & Hin & Hcell & Hbad).
  assert (E : convert_amounts float_value nan (map csv_Amount rows) = None).
  { unfold convert_amounts.
    destruct (str_accessor_applies (map csv_Amount rows)); [|reflexivity].
    apply map_option_fails. exists (csv_Amount row).
    split; [now apply in_map|]. rewrite Hcell. unfold amount_of_cell, py_float.
    now rewrite Hbad. }
  split; [exact E|]. unfold load_transactions. now rewrite E.
Qed.

(** X15: a file with rows in which no cell of the Amount column is a text,
    because every amount is written as a plain number or is missing, is
    refused as a whole: [.str] raises on such a column and
    [load_transactions] returns [None]. *)
Theorem load_transactions_amounts_not_text (cats : categories_t)
    (rows : list csv_row) :
  rows <> [] ->
  Forall (fun row : csv_row => is_text (csv_Amount row) = false) rows ->
  load_transactions float_value nan to_datetime NaT cats rows = None.
Proof.
  intros Hne Hall. unfold load_transactions, convert_amounts.
  rewrite str_accessor_refuses; [reflexivity| |].
  - destruct rows; [now elim Hne | discriminate].
  - rewrite Forall_forall in *. intros c Hc.
    apply in_map_iff in Hc. destruct Hc as (row & <- & Hin). now apply Hall.
Qed.

(** X16: when the amounts and the dates convert and a cell of the column
    Details is no text, [load_transactions] returns [None] exactly when the
    store has a category, other than ["Uncategorised"], with a keyword:
    the matcher then calls [.lower()] on the cell, which raises. *)
Theorem load_transactions_details_not_text (cats : categories_t)
    (rows : list csv_row) (amounts : list float) (dates : list datetime) :
  convert_amounts float_value nan (map csv_Amount rows) = Some amounts ->
  convert_dates to_datetime NaT (map csv_Date rows) = Some dates ->
  (exists row : csv_row, In row rows /\ is_text (csv_Details row) = false) ->
  (load_transactions float_value nan to_datetime NaT cats rows = None
   <->
   exists category keywords,
     In (category, keywords) cats
     /\ category <> "Uncategorised" /\ keywords <> []).
Proof.
  intros Ha Hd (row & Hin & Hrow).
  unfold load_transactions. rewrite Ha, Hd.
  pose proof (build_frame_Forall2 (convert_amounts_Forall2 _ Ha)
                (convert_dates_Forall2 _ Hd)) as Hf.
  assert (Hbad : exists t, In t (build_frame rows amounts dates)
                           /\ is_text (row_Details t) = false).
  { clear Ha Hd. induction Hf as [|r t rs ts (E & _) _ IH]; [destruct Hin|].
    destruct Hin as [->|Hin].
    - exists t. split; [now left | now rewrite E].
    - destruct (IH Hin) as (t' & Hin' & Ht'). exists t'. split; [now right | exact Ht']. }
  assert (Hreads : forall item : string * list string,
            reads_rows item = true <-> fst item <> "Uncategorised" /\ snd item <> []).
  { intros [c kws]. unfold reads_rows. simpl.
    rewrite negb_true_iff, orb_false_iff, String.eqb_neq.
    destruct kws; simpl; split; intros [H1 H2]; split; congruence. }
  unfold categorize_frame. split.
  - intros Hnone.
    destruct (existsb reads_rows cats) eqn:E.
    + apply existsb_exists in E. destruct E as ([c kws] & Hc & Hr).
      apply Hreads in Hr. now exists c, kws.
    + rewrite (@run_skips cats) in Hnone; [discriminate|].
      intros item Hitem. destruct (reads_rows item) eqn:Hr; [|reflexivity].
      assert (existsb reads_rows cats = true) as E'
        by (apply existsb_exists; now exists item).
      congruence.
  - intros (c & kws & Hc & Hcu & Hk).
    apply run_raises.
    + destruct Hbad as (t & Ht & Htext).
      exists (set_row_Category "Uncategorised" t). split; [|exact Htext].
      now apply in_map.
    + exists (c, kws). split; [exact Hc|]. now apply Hreads.
Qed.

(** X17: the frame that [load_transactions] returns has one row for each
    row of the file, in the order of the file, with the cells of Details,
    Debit/Credit and Status as they were read, the amount and the date
    converted, and the category that the matcher gives to a row of these
    details: ["Uncategorised"] when the cell of the details is no text. *)
Theorem load_transactions_rows (cats : categories_t) (rows : list csv_row)
    (df : list (frame_row float datetime)) :
  load_transactions float_value nan to_datetime NaT cats rows = Some df ->
  Forall2 (fun r t =>
             row_Details t = csv_Details r
             /\ row_Debit_Credit t = csv_Debit_Credit r
             /\ row_Status t = csv_Status r
             /\ amount_of_cell float_value nan (csv_Amount r) = Some (row_Amount t)
             /\ date_of_cell to_datetime NaT (csv_Date r) = Some (row_Date t)
             /\ row_Category t = Some (category_of_cell cats (csv_Details r)))
          rows df.
Proof.
  unfold load_transactions.
  destruct (convert_amounts float_value nan (map csv_Amount rows))
    as [amounts|] eqn:Ha; [|discriminate].
  destruct (convert_dates to_datetime NaT (map csv_Date rows))
    as [dates|] eqn:Hd; [|discriminate].
  intros H. apply categorize_frame_rows in H. subst df.
  pose proof (build_frame_Forall2 (convert_amounts_Forall2 _ Ha)
                (convert_dates_Forall2 _ Hd)) as Hf.
  clear Ha Hd.
  induction Hf as [|r t rs ts (H1 & H2 & H3 & H4 & H5) _ IH]; simpl;
    [constructor|].
  constructor; [|exact IH]. simpl. now rewrite H1.
Qed.

End LoaderFacts.

(** In the examples a number is kept as the text that [float()] was given
    and a date as a text; their frames have no text in the column Date, so
    that the conversion of the dates, which is left open, plays no part. *)
Lemma load_transactions_bad_amount_witness :
  let rows := [ {| csv_Date := NaN; csv_Details := Str "Carrefour";
                   csv_Amount := Str "2,500.00"; csv_Debit_Credit := Str "Debit";
                   csv_Status := Str "Settled" |};
                {| csv_Date := NaN; csv_Details := Str "Salary";
                   csv_Amount := Str "abc"; csv_Debit_Credit := Str "Credit";
                   csv_Status := Str "Settled" |} ] in
  convert_amounts (fun s : string => s) "nan" (map csv_Amount rows) = None
  /\ load_transactions (fun s : string => s) "nan" (fun _ : string => None) "NaT"
       [("Groceries", ["carrefour"])] rows = None.
Proof.
  intros rows.
  apply (@load_transactions_bad_amount string string (fun s : string => s) "nan"
           (fun _ : string => None) "NaT" [("Groceries", ["carrefour"])] rows).
  exists {| csv_Date := NaN; csv_Details := Str "Salary";
            csv_Amount := Str "abc"; csv_Debit_Credit := Str "Credit";
            csv_Status := Str "Settled" |}, "abc".
  split; [right; now left|]. split; reflexivity.
Defined.

(** C9 as the specification words it fails on a file with an Amount cell
    that holds a marker of a missing value, such as [N/A], or nothing:
    [pd.read_csv] reads it as a missing value, line 48 lets it through and
    the frame is returned with the amount [nan] in that row. *)
Lemma load_transactions_missing_amount_counterexample :
  let rows := [ {| csv_Date := NaN; csv_Details := Str "Carrefour";
                   csv_Amount := Str "2,500.00"; csv_Debit_Credit := Str "Debit";
                   csv_Status := Str "Settled" |};
                {| csv_Date := NaN; csv_Details := Str "Salary";
                   csv_Amount := NaN; csv_Debit_Credit := Str "Credit";
                   csv_Status := Str "Settled" |} ] in
  load_transactions (fun s : string => s) "nan" (fun _ : string => None) "NaT"
    [("Groceries", ["carrefour"])] rows
  = Some [ {| row_Date := "NaT"; row_Details := Str "Carrefour";
              row_Amount := "2500.00"; row_Debit_Credit := Str "Debit";
              row_Status := Str "Settled"; row_Category := Some "Groceries" |};
           {| row_Date := "NaT"; row_Details := Str "Salary";
              row_Amount := "nan"; row_Debit_Credit := Str "Credit";
              row_Status := Str "Settled";
              row_Category := Some "Uncategorised" |} ]
  /\ ~ (forall (cats : categories_t) (rows : list csv_row),
          (exists row, In row rows /\ not_numeric (csv_Amount row)) ->
          load_transactions (fun s : string => s) "nan" (fun _ : string => None)
            "NaT" cats rows = None).
Proof.
  intros rows. split; [reflexivity|].
  intros H. specialize (H [("Groceries", ["carrefour"])] rows).
  assert (Hsome : load_transactions (fun s : string => s) "nan"
                    (fun _ : string => None) "NaT"
                    [("Groceries", ["carrefour"])] rows <> None)
    by (vm_compute; discriminate).
  apply Hsome, H.
  exists {| csv_Date := NaN; csv_Details := Str "Salary";
            csv_Amount := NaN; csv_Debit_Credit := Str "Credit";
            csv_Status := Str "Settled" |}.
  split; [right; now left | exact I].
Qed.

Lemma load_transactions_amounts_not_text_witness :
  load_transactions (fun s : string => s) "nan" (fun _ : string => None) "NaT"
    [("Groceries", ["carrefour"])]
    [ {| csv_Date := NaN; csv_Details := Str "Carrefour";
         csv_Amount := Other "120.50"; csv_Debit_Credit := Str "Debit";
         csv_Status := Str "Settled" |};
      {| csv_Date := NaN; csv_Details := Str "KFC";
         csv_Amount := Other "75"; csv_Debit_Credit := Str "Debit";
         csv_Status := Str "Settled" |} ]
  = None.
Proof.
  apply (@load_transactions_amounts_not_text string string (fun s : string => s)
           "nan" (fun _ : string => None) "NaT").
  - discriminate.
  - repeat constructor.
Defined.

Lemma load_transactions_details_not_text_witness :
  load_transactions (fun s : string => s) "nan" (fun _ : string => None) "NaT"
    [("Groceries", ["carrefour"])]
    [ {| csv_Date := NaN; csv_Details := Other "12345";
         csv_Amount := Str "2,500.00"; csv_Debit_Credit := Str "Debit";
         csv_Status := Str "Settled" |} ]
  = None
  <->
  exists category keywords,
    In (category, keywords) [("Groceries", ["carrefour"])]
    /\ category <> "Uncategorised" /\ keywords <> [].
Proof.
  apply (@load_transactions_details_not_text string string (fun s : string => s)
           "nan" (fun _ : string => None) "NaT" [("Groceries", ["carrefour"])]
           [ {| csv_Date := NaN; csv_Details := Other "12345";
                csv_Amount := Str "2,500.00"; csv_Debit_Credit := Str "Debit";
                csv_Status := Str "Settled" |} ]
           ["2500.00"] ["NaT"]).
  - reflexivity.
  - reflexivity.
  - eexists. split; [now left | reflexivity].
Defined.

Lemma load_transactions_rows_witness :
  Forall2 (fun r t =>
             row_Details t = csv_Details r
             /\ row_Debit_Credit t = csv_Debit_Credit r
             /\ row_Status t = csv_Status r
             /\ amount_of_cell (fun s : string => s) "nan" (csv_Amount r)
                = Some (row_Amount t)
             /\ date_of_cell (fun _ : string => None) "NaT" (csv_Date r)
                = Some (row_Date t)
             /\ row_Category t
                = Some (category_of_cell [("Groceries", ["carrefour"])]
                          (csv_Details r)))
    [ {| csv_Date := NaN; csv_Details := Str "Carrefour  ";
         csv_Amount := Str "2,500.00"; csv_Debit_Credit := Str "Debit";
         csv_Status := Str "Settled" |};
      {| csv_Date := NaN; csv_Details := Str "Salary";
         csv_Amount := NaN; csv_Debit_Credit := Str "Credit";
         csv_Status := NaN |} ]
    [ {| row_Date := "NaT"; row_Details := Str "Carrefour  ";
         row_Amount := "2500.00"; row_Debit_Credit := Str "Debit";
         row_Status := Str "Settled"; row_Category := Some "Groceries" |};
      {| row_Date := "NaT"; row_Details := Str "Salary";
         row_Amount := "nan"; row_Debit_Credit := Str "Credit";
         row_Status := NaN; row_Category := Some "Uncategorised" |} ].
Proof.
  apply (@load_transactions_rows string string (fun s : string => s) "nan"
           (fun _ : string => None) "NaT" [("Groceries", ["carrefour"])]).
  reflexivity.
Defined.

(** With no category that has a keyword the same file is loaded, the
    number in the column Details left as it is. *)
Example load_transactions_details_number :
  load_transactions (fun s : string => s) "nan" (fun _ : string => None) "NaT"
    [("UNcategorized", [])]
    [ {| csv_Date := NaN; csv_Details := Other "12345";
         csv_Amount := Str "2,500.00"; csv_Debit_Credit := Str "Debit";
         csv_Status := Str "Settled" |} ]
  = Some [ {| row_Date := "NaT"; row_Details := Other "12345";
              row_Amount := "2500.00"; row_Debit_Credit := Str "Debit";
              row_Status := Str "Settled";
              row_Category := Some "Uncategorised" |} ].
Proof. reflexivity. Qed.

(** * Further properties of the script *)

Section MainMore.

Variables float datetime : Type.
Implicit Types (df : list (transaction float datetime))
  (edited : list (transaction float datetime * string)) (st : session).

(** X18: a row is a debit, a credit, or neither; the rows whose direction
    is neither ["Debit"] nor ["Credit"], letter for letter, are in neither
    of the two frames of [main], and no row is in both. *)
Theorem debits_credits_count df :
  List.length (debits df) + List.length (credits df)
  + List.length
      (filter (fun row => negb (String.eqb (Debit_Credit row) "Debit")
                          && negb (String.eqb (Debit_Credit row) "Credit")) df)
  = List.length df.
Proof.
  unfold debits, credits. induction df as [|row df IH]; simpl; [reflexivity|].
  destruct (String.eqb (Debit_Credit row) "Debit") eqn:Ed.
  - apply String.eqb_eq in Ed. rewrite Ed. simpl. lia.
  - destruct (String.eqb (Debit_Credit row) "Credit"); simpl; lia.
Qed.

(** An invariant of the two keyword operations is one of the edit loop. *)
Lemma edit_loop_preserves (P : session -> Prop) :
  (forall c k st, P st -> P (remove_keyword_from_category c k st)) ->
  (forall c k st added st',
     P st -> add_keyword_to_category c k st = Ok (added, st') -> P st') ->
  forall edited st rerun st' df',
    P st -> edit_loop edited st = Ok (rerun, st', df') -> P st'.
Proof.
  intros Hrem Hadd edited.
  induction edited as [|[row new_category] edited IH];
    intros st rerun st' df' HP; simpl.
  - now intros [= _ <- _].
  - destruct (Category row) as [last_category|]; [|discriminate].
    destruct (String.eqb new_category last_category).
    + destruct (edit_loop edited st) as [[[r s] d]|e] eqn:E; [|discriminate].
      intros [= _ <- _]. exact (IH _ _ _ _ HP E).
    + destruct (add_keyword_to_category new_category (Details row)
                  (remove_keyword_from_category last_category (Details row) st))
        as [[added st2]|e] eqn:Ea; [|discriminate].
      assert (HP2 : P st2) by exact (Hadd _ _ _ _ _ (Hrem _ _ _ HP) Ea).
      destruct added; [now intros [= _ <- _]|].
      destruct (edit_loop edited st2) as [[[r s] d]|e] eqn:E; [|discriminate].
      intros [= _ <- _]. exact (IH _ _ _ _ HP2 E).
Qed.

Lemma edit_loop_writes_le edited st rerun st' df' :
  edit_loop edited st = Ok (rerun, st', df') -> writes st <= writes st'.
Proof.
  apply (@edit_loop_preserves (fun s => writes st <= writes s)); [| |lia].
  - intros c k s Hs. destruct (remove_keyword_writes c k s) as [->| ->]; lia.
  - intros c k s added s' Hs Ha.
    destruct (add_keyword_writes _ _ _ Ha) as [[_ ->]|[_ ->]]; lia.
Qed.

(** X19: a table in which no category was edited costs nothing: the loop
    changes neither the store, nor the rule file, nor the frame, and asks
    for no rerun. *)
Theorem edit_loop_no_edits edited st :
  Forall (fun item => Category (fst item) = Some (snd item)) edited ->
  edit_loop edited st = Ok (false, st, map fst edited).
Proof.
  induction 1 as [|[row new_category] edited Hrow _ IH]; simpl; [reflexivity|].
  simpl in Hrow. now rewrite Hrow, String.eqb_refl, IH.
Qed.

(** X20: the edit loop never creates, deletes or reorders a category. *)
Theorem edit_loop_keeps_categories edited st rerun st' df' :
  edit_loop edited st = Ok (rerun, st', df') ->
  dict_keys (categories st') = dict_keys (categories st).
Proof.
  apply (@edit_loop_preserves
           (fun s => dict_keys (categories s) = dict_keys (categories st)));
    [| |reflexivity].
  - intros c k s Hs. now rewrite remove_keyword_keys.
  - intros c k s added s' Hs Ha. now rewrite (add_keyword_keys _ _ _ Ha).
Qed.

(** X21: the edit loop keeps the keywords of the store trimmed and single
    in their lists. *)
Theorem edit_loop_keeps_trimmed edited st rerun st' df' :
  store_all keywords_trimmed (categories st) ->
  edit_loop edited st = Ok (rerun, st', df') ->
  store_all keywords_trimmed (categories st').
Proof.
  apply (@edit_loop_preserves (fun s => store_all keywords_trimmed (categories s))).
  - intros c k s Hs. now apply remove_keyword_keeps_trimmed.
  - intros c k s added s' Hs. rewrite add_keyword_unfold.
    destruct (is_empty (strip k)); [now intros [= _ <-]|].
    destruct (dict_get c (categories s)) as [keywords|] eqn:Hget; [|discriminate].
    destruct (contains keywords (strip k)) eqn:Hc; [now intros [= _ <-]|].
    intros [= _ <-]. simpl.
    apply dict_set_Forall; [exact Hs|]. simpl.
    apply keywords_trimmed_append;
      [exact (store_all_get _ Hs Hget) | now apply contains_not_In].
Qed.

(** X22: when the rule file holds the store before the edit loop, the load
    at the start of the next run of the script reads back the store that
    the loop has left in the session. *)
Theorem edit_loop_then_reload edited st rerun st' df' :
  synced st ->
  edit_loop edited st = Ok (rerun, st', df') ->
  forall sess, load_categories sess (disk st') = Ok (categories st').
Proof.
  intros Hs H sess.
  assert (Hs' : synced st').
  { revert Hs H. apply (@edit_loop_preserves synced).
    - intros c k s. apply remove_keyword_synced.
    - intros c k s added s'. apply add_keyword_synced. }
  unfold synced in Hs'. now rewrite Hs'.
Qed.

(** X23: the edit loop makes no change to the rule store that it does not
    write: when the rule file was not written during the loop, the store
    and the file are as they were and no rerun is asked for.  The frame of
    the session is apart: line 130 changes it without a write. *)
Theorem edit_loop_no_write_no_change edited st rerun st' df' :
  edit_loop edited st = Ok (rerun, st', df') ->
  writes st' = writes st ->
  st' = st /\ rerun = false.
Proof.
  revert st rerun st' df'.
  induction edited as [|[row new_category] edited IH];
    intros st rerun st' df'; simpl.
  - now intros [= <- <- _].
  - destruct (Category row) as [last_category|]; [|discriminate].
    destruct (String.eqb new_category last_category).
    + destruct (edit_loop edited st) as [[[r s] d]|e] eqn:E; [|discriminate].
      intros [= <- <- _]. exact (IH _ _ _ _ E).
    + set (st1 := remove_keyword_from_category last_category (Details row) st).
      destruct (add_keyword_to_category new_category (Details row) st1)
        as [[added st2]|e] eqn:Ea; [|discriminate].
      pose proof (remove_keyword_writes last_category (Details row) st) as Hr.
      fold st1 in Hr.
      pose proof (add_keyword_writes _ _ _ Ea) as Hw.
      destruct added.
      * intros [= <- <- _] Hsame.
        destruct Hw as [[[=] _]|[_ Hw]]. destruct Hr as [Hr|Hr]; rewrite Hr in Hw; lia.
      * destruct (edit_loop edited st2) as [[[r s] d]|e] eqn:E; [|discriminate].
        intros [= <- <- _] Hsame.
        pose proof (edit_loop_writes_le _ _ E) as Hle.
        destruct Hw as [[_ ->]|[[=] _]].
        destruct Hr as [Hr|Hr]; [|lia].
        rewrite Hr in E. exact (IH _ _ _ _ E Hsame).
Qed.

(** X24: when the edit loop ends without a rerun, the frame of the session
    has the rows of the table, in their order, each with the category that
    the editor returned for it and its other fields as they were. *)
Theorem edit_loop_finished_frame edited st st' df' :
  edit_loop edited st = Ok (false, st', df') ->
  Forall2 (fun item row' =>
             Category row' = Some (snd item)
             /\ Date row' = Date (fst item)
             /\ Details row' = Details (fst item)
             /\ Amount row' = Amount (fst item)
             /\ Debit_Credit row' = Debit_Credit (fst item)
             /\ Status row' = Status (fst item))
          edited df'.
Proof.
  revert st st' df'.
  induction edited as [|[row new_category] edited IH]; intros st st' df'; simpl.
  - intros [= _ <-]. constructor.
  - destruct (Category row) as [last_category|] eqn:Hcat; [|discriminate].
    destruct (String.eqb new_category last_category) eqn:Heq.
    + destruct (edit_loop edited st) as [[[r s] d]|e] eqn:E; [|discriminate].
      intros [= -> _ <-]. constructor; [|exact (IH _ _ _ E)].
      apply String.eqb_eq in Heq. subst last_category. simpl.
      now repeat split.
    + destruct (add_keyword_to_category new_category (Details row)
                  (remove_keyword_from_category last_category (Details row) st))
        as [[added st2]|e]; [|discriminate].
      destruct added; [discriminate|].
      destruct (edit_loop edited st2) as [[[r s] d]|e] eqn:E; [|discriminate].
      intros [= -> _ <-]. constructor; [|exact (IH _ _ _ E)].
      simpl. now repeat split.
Qed.

End MainMore.

Lemma edit_loop_no_edits_witness :
  edit_loop [(sample_debit, "Groceries")] sample_session
  = Ok (false, sample_session, [sample_debit]).
Proof.
  apply (@edit_loop_no_edits nat string [(sample_debit, "Groceries")] sample_session).
  repeat constructor.
Defined.

Lemma edit_loop_keeps_categories_witness :
  dict_keys (categories sample_session_moved) = dict_keys (categories sample_session).
Proof.
  apply (@edit_loop_keeps_categories nat string [(sample_debit, "Food")]
           sample_session true sample_session_moved
           [set_Category "Food" sample_debit]).
  reflexivity.
Defined.

Lemma edit_loop_keeps_trimmed_witness :
  store_all keywords_trimmed (categories sample_session_moved).
Proof.
  apply (@edit_loop_keeps_trimmed nat string [(sample_debit, "Food")]
           sample_session true sample_session_moved
           [set_Category "Food" sample_debit]).
  - repeat constructor; simpl; intuition discriminate.
  - reflexivity.
Defined.

Lemma edit_loop_then_reload_witness :
  load_categories None (disk sample_session_moved)
  = Ok (categories sample_session_moved).
Proof.
  apply (@edit_loop_then_reload nat string [(sample_debit, "Food")]
           sample_session true sample_session_moved
           [set_Category "Food" sample_debit]).
  - reflexivity.
  - reflexivity.
Defined.

Lemma edit_loop_no_write_no_change_witness :
  edit_loop [(sample_blank_debit, "Food")] sample_session
  = Ok (false, sample_session, [set_Category "Food" sample_blank_debit])
  /\ (sample_session = sample_session /\ false = false).
Proof.
  split; [reflexivity|].
  apply (@edit_loop_no_write_no_change nat string [(sample_blank_debit, "Food")]
           sample_session false sample_session
           [set_Category "Food" sample_blank_debit]).
  - reflexivity.
  - reflexivity.
Defined.

Lemma edit_loop_finished_frame_witness :
  Forall2 (fun item row' =>
             Category row' = Some (snd item)
             /\ Date row' = Date (fst item)
             /\ Details row' = Details (fst item)
             /\ Amount row' = Amount (fst item)
             /\ Debit_Credit row' = Debit_Credit (fst item)
             /\ Status row' = Status (fst item))
    [(sample_debit, "Groceries"); (sample_blank_debit, "Food")]
    [ {| Date := "05 Mar 2024"; Details := "Carrefour"; Amount := 42;
         Debit_Credit := "Debit"; Status := "Settled";
         Category := Some "Groceries" |};
      {| Date := "06 Mar 2024"; Details := "   "; Amount := 15;
         Debit_Credit := "Debit"; Status := "Settled";
         Category := Some "Food" |} ].
Proof.
  apply (@edit_loop_finished_frame nat string
           [(sample_debit, "Groceries"); (sample_blank_debit, "Food")]
           sample_session sample_session).
  reflexivity.
Defined.
